(** * Taint-range side table of the IAST taint-tracking engine

    A shallow embedding of
    [ddtrace/appsec/_iast/_taint_tracking/TaintTracking/TaintRange.cpp]
    and the properties its specification states about it.

    The C++ code works on raw pointers into several kinds of objects
    (host values, [TaintRange]s, manually counted [TaintedObject]s and
    the per-context maps).  Each kind gets its own store, a finite map
    from addresses to contents; a function of the source becomes a
    computation over the record of stores that may return, throw
    [py::value_error], or run into undefined behaviour (a null or
    dangling dereference, a read through [end()]). *)

From stdpp Require Import gmap strings list fin_maps.

Open Scope Z_scope.

(** ** Data *)

(** Raw pointers are addresses; [nullptr] is address zero. *)
Definition nullptr : Z := 0.

(** The part of a host value this file looks at.  [ob_refcnt] is the
    interpreter's reference count, [ob_text] is what [is_text]
    answers, [ob_hash] is the [hash] field read through the
    [PyASCIIObject] cast (-1 while the hash has not been computed) and
    [ob_real_hash] is what [PyObject_Hash] computes and caches. *)
Record PyObject := mkPyObject {
  ob_refcnt : Z;
  ob_text : bool;
  ob_hash : Z;
  ob_real_hash : Z
}.

Record Source := mkSource {
  name : string;
  origin : Z;
  value : string
}.

(** [RANGE_START] and [RANGE_LENGTH] are declared in [TaintRange.h],
    which is not part of this file; they are the 64-bit signed [long].
    A value of that type is an integer in [-2^63, 2^63), and a sum
    that leaves this interval wraps around. *)
Definition is_long (z : Z) : Prop := - 2 ^ 63 ≤ z < 2 ^ 63.

Definition wrap_long (z : Z) : Z := (z + 2 ^ 63) mod 2 ^ 64 - 2 ^ 63.

Module TaintRange.
Record t := mk {
  start : Z;
  length : Z;
  source : Source
}.
End TaintRange.

(** A sequence of shared pointers to ranges. *)
Abbreviation TaintRangeRefs := (list Z).

Module TaintedObjectData.
Record t := mk {
  ranges_ : TaintRangeRefs;
  rc_ : Z
}.
End TaintedObjectData.

(** [unordered_map<uintptr_t, pair<Py_hash_t, TaintedObjectPtr>>] *)
Abbreviation TaintRangeMapType := (gmap Z (Z * Z)).

Record State := mkState {
  py_objects : gmap Z PyObject;
  taint_ranges : gmap Z TaintRange.t;
  tainted_objects : gmap Z TaintedObjectData.t;
  taint_maps : gmap Z TaintRangeMapType;
  tainting_map : Z;
  ctx_id : Z
}.

Definition with_py_objects (f : gmap Z PyObject → gmap Z PyObject) (s : State) : State :=
  mkState (f (py_objects s)) (taint_ranges s) (tainted_objects s)
          (taint_maps s) (tainting_map s) (ctx_id s).

Definition with_taint_ranges (f : gmap Z TaintRange.t → gmap Z TaintRange.t) (s : State) : State :=
  mkState (py_objects s) (f (taint_ranges s)) (tainted_objects s)
          (taint_maps s) (tainting_map s) (ctx_id s).

Definition with_tainted_objects
    (f : gmap Z TaintedObjectData.t → gmap Z TaintedObjectData.t) (s : State) : State :=
  mkState (py_objects s) (taint_ranges s) (f (tainted_objects s))
          (taint_maps s) (tainting_map s) (ctx_id s).

Definition with_taint_maps
    (f : gmap Z TaintRangeMapType → gmap Z TaintRangeMapType) (s : State) : State :=
  mkState (py_objects s) (taint_ranges s) (tainted_objects s)
          (f (taint_maps s)) (tainting_map s) (ctx_id s).

(** ** Computations *)

Inductive exn :=
| value_error (msg : string).

Inductive outcome (A : Type) :=
| Ok (a : A) (s : State)
| Throw (e : exn) (s : State)
| Undefined.
Arguments Ok {A} a s.
Arguments Throw {A} e s.
Arguments Undefined {A}.

Definition M (A : Type) : Type := State → outcome A.

Definition ret {A} (a : A) : M A := λ s, Ok a s.

Definition bind {A B} (m : M A) (k : A → M B) : M B :=
  λ s, match m s with
       | Ok a s' => k a s'
       | Throw e s' => Throw e s'
       | Undefined => Undefined
       end.

Definition throw {A} (e : exn) : M A := λ s, Throw e s.
Definition undefined {A} : M A := λ _, Undefined.

Notation "x <- c1 ;; c2" := (bind c1 (λ x, c2))
  (at level 100, c1 at next level, right associativity).
Notation "c1 ;; c2" := (bind c1 (λ _, c2))
  (at level 100, right associativity).

(** Dereferencing: a null pointer or an address that holds no object
    is undefined behaviour. *)
Definition load {A} (store : State → gmap Z A) (p : Z) : M A :=
  λ s, if p =? nullptr then Undefined
       else match store s !! p with
            | Some a => Ok a s
            | None => Undefined
            end.

(** An address no object of the store lives at; never [nullptr]. *)
Definition fresh_addr {A} (store : gmap Z A) : Z :=
  1 + map_fold (λ k _ acc, Z.max k acc) 0 store.

(** [std::unordered_map::insert]: keeps the old entry when the key is
    already there. *)
Definition umap_insert (k : Z) (v : Z * Z) (m : TaintRangeMapType) : TaintRangeMapType :=
  match m !! k with
  | Some _ => m
  | None => <[k:=v]> m
  end.

(** Conversion of a [Py_hash_t] to the map's key type [uintptr_t]
    (64 bits). *)
Definition to_uintptr (h : Z) : Z := h mod 2 ^ 64.

(** ** Host capabilities *)

(** Modelled from the spec: [is_text] is declared in a header that is
    not part of this file; it is the capability "is this value
    text-like", false for a null pointer. *)
Definition is_text (p : Z) : M bool :=
  if p =? nullptr then ret false
  else o <- load py_objects p ;; ret (ob_text o).

(** Modelled from the spec: [get_unique_id] is declared elsewhere; the
    identity of a value is its address. *)
Definition get_unique_id (p : Z) : Z := p.

(** [((PyASCIIObject* )p)->hash] *)
Definition PyASCII_hash (p : Z) : M Z :=
  o <- load py_objects p ;; ret (ob_hash o).

(** [PyObject_Hash]: computes the hash and caches it in the value.  *)
Definition PyObject_Hash (p : Z) : M Z :=
  o <- load py_objects p ;;
  if ob_hash o =? -1
  then λ s, Ok (ob_real_hash o)
               (with_py_objects
                  <[p := mkPyObject (ob_refcnt o) (ob_text o)
                                    (ob_real_hash o) (ob_real_hash o)]> s)
  else ret (ob_hash o).

(** [Py_DECREF]: takes one reference off the object at [p], which is
    deallocated when none is left. *)
Definition Py_DECREF (p : Z) : M unit :=
  o <- load py_objects p ;;
  λ s, Ok tt (with_py_objects
                (if ob_refcnt o - 1 =? 0
                 then delete p
                 else <[p := mkPyObject (ob_refcnt o - 1) (ob_text o)
                                        (ob_hash o) (ob_real_hash o)]>) s).

(** ** TaintedObject *)

Module TaintedObject.
Import TaintedObjectData.

(** Modelled from the spec: [TaintedObject::incref] is defined in
    another file; it adds one to the manual counter. *)
Definition incref (p : Z) : M unit :=
  o <- load tainted_objects p ;;
  λ s, Ok tt (with_tainted_objects <[p := mk (ranges_ o) (rc_ o + 1)]> s).

(** Modelled from the spec: [TaintedObject::decref] is defined in
    another file; it takes one off the manual counter and destroys
    the object, releasing its ranges, when the count reaches zero. *)
Definition decref (p : Z) : M unit :=
  o <- load tainted_objects p ;;
  λ s, Ok tt (with_tainted_objects
                (if rc_ o - 1 =? 0
                 then delete p
                 else <[p := mk (ranges_ o) (rc_ o - 1)]>) s).

(** Modelled from the spec: [TaintedObject::get_ranges] is defined in
    another file; it returns the owned sequence of ranges. *)
Definition get_ranges (p : Z) : M TaintRangeRefs :=
  o <- load tainted_objects p ;; ret (ranges_ o).

End TaintedObject.

(** ** Initializer *)

Module Initializer.

(** Modelled from the spec: [Initializer::get_tainting_map] is defined
    in [Initializer/Initializer.h]; it returns the map of the active
    context, or null when there is none. *)
Definition get_tainting_map : M Z := λ s, Ok (tainting_map s) s.

(** Modelled from the spec: [Initializer::context_id] is defined in
    [Initializer/Initializer.h]; 0 means that no context is active. *)
Definition context_id : M Z := λ s, Ok (ctx_id s) s.

(** Modelled from the spec: [Initializer::allocate_taint_range] is
    defined in [Initializer/Initializer.h]; the single allocation
    entry point for ranges, it returns a range with the given fields. *)
Definition allocate_taint_range (start length : Z) (source : Source) : M Z :=
  λ s, let p := fresh_addr (taint_ranges s) in
       Ok p (with_taint_ranges <[p := TaintRange.mk start length source]> s).

(** Modelled from the spec: [Initializer::allocate_ranges_into_taint_object]
    is defined in [Initializer/Initializer.h]; the single allocation
    entry point for containers, it returns a container that holds the
    given ranges and that no map entry refers to yet. *)
Definition allocate_ranges_into_taint_object (ranges : TaintRangeRefs) : M Z :=
  λ s, let p := fresh_addr (tainted_objects s) in
       Ok p (with_tainted_objects <[p := TaintedObjectData.mk ranges 0]> s).

End Initializer.

(** ** TaintRange.cpp *)

Definition api_shift_taint_range (source_taint_range : Z) (offset : Z) : M Z :=
  r <- load taint_ranges source_taint_range ;;
  Initializer.allocate_taint_range
    (wrap_long (TaintRange.start r + offset)) (TaintRange.length r) (TaintRange.source r).

Fixpoint shift_loop (todo : TaintRangeRefs) (offset : Z) (new_ranges : TaintRangeRefs)
    : M TaintRangeRefs :=
  match todo with
  | [] => ret new_ranges
  | trange :: rest =>
      p <- api_shift_taint_range trange offset ;;
      shift_loop rest offset (new_ranges ++ [p])
  end.

Definition api_shift_taint_ranges (source_taint_ranges : TaintRangeRefs) (offset : Z)
    : M TaintRangeRefs :=
  shift_loop source_taint_ranges offset [].

Definition map_at (p : Z) : M TaintRangeMapType := load taint_maps p.

Definition store_map (p : Z) (m : TaintRangeMapType) : M unit :=
  λ s, Ok tt (with_taint_maps <[p := m]> s).

Definition is_empty_map (m : TaintRangeMapType) : bool := bool_decide (m = ∅).

Definition get_ranges (string_input : Z) (tx_map : Z) : M TaintRangeRefs :=
  text <- is_text string_input ;;
  if negb text then ret []
  else
    tx_map <- (if tx_map =? nullptr then Initializer.get_tainting_map else ret tx_map) ;;
    if tx_map =? nullptr then ret []
    else
      m <- map_at tx_map ;;
      if is_empty_map m then ret []
      else
        match m !! get_unique_id string_input with
        | None => ret []
        | Some (cached_hash, tobj) =>
            hash <- PyASCII_hash string_input ;;
            if negb (hash =? cached_hash) then ret []
            else TaintedObject.get_ranges tobj
        end.

Definition not_initialized : exn :=
  value_error "Tainted Map isn't initialized. Call create_context() first".

(** The prologue shared by the three functions that throw. *)
Definition map_or_throw (tx_map : Z) : M Z :=
  if tx_map =? nullptr
  then
    tx_map <- Initializer.get_tainting_map ;;
    if tx_map =? nullptr then throw not_initialized else ret tx_map
  else ret tx_map.

Definition set_ranges (str : Z) (ranges : TaintRangeRefs) (tx_map : Z) : M unit :=
  text <- is_text str ;;
  if negb text || bool_decide (ranges = []) then ret tt
  else
    tx_map <- map_or_throw tx_map ;;
    tx_id <- Initializer.context_id ;;
    if tx_id =? 0 then ret tt
    else
      let obj_id := get_unique_id str in
      m <- map_at tx_map ;;
      let it := m !! obj_id in
      new_tainted_object <- Initializer.allocate_ranges_into_taint_object ranges ;;
      hash <- PyASCII_hash str ;;
      TaintedObject.incref new_tainted_object ;;
      match it with
      | Some (_, old) =>
          TaintedObject.decref old ;;
          store_map tx_map (<[obj_id := (hash, new_tainted_object)]> m)
      | None =>
          store_map tx_map (umap_insert obj_id (hash, new_tainted_object) m)
      end.

Fixpoint all_ranges_loop (params : list Z) (tx_map : Z) (all_ranges : TaintRangeRefs)
    : M TaintRangeRefs :=
  match params with
  | [] => ret all_ranges
  | param :: rest =>
      text <- is_text param ;;
      if text
      then
        ranges <- get_ranges param tx_map ;;
        all_ranges_loop rest tx_map (all_ranges ++ ranges)
      else all_ranges_loop rest tx_map all_ranges
  end.

Definition are_all_text_all_ranges (candidate_text : Z) (parameter_list : list Z)
    : M (TaintRangeRefs * TaintRangeRefs) :=
  text <- is_text candidate_text ;;
  if negb text then ret ([], [])
  else
    tx_map <- Initializer.get_tainting_map ;;
    candidate_text_ranges <- get_ranges candidate_text tx_map ;;
    all_ranges <- all_ranges_loop parameter_list tx_map [] ;;
    ret (all_ranges ++ candidate_text_ranges, candidate_text_ranges).

Definition get_tainted_object (str : Z) (tx_map : Z) : M Z :=
  if str =? nullptr then ret nullptr
  else
    tx_map <- map_or_throw tx_map ;;
    m <- map_at tx_map ;;
    if is_empty_map m then ret nullptr
    else
      let it := m !! get_unique_id str in
      hash <- PyASCII_hash str ;;
      match it with
      | None =>
          (* [it->second.first] is read before [it] is compared with [end()] *)
          undefined
      | Some (cached_hash, tobj) =>
          if negb (hash =? cached_hash)
          then TaintedObject.decref tobj ;; ret nullptr
          else ret tobj
      end.

(** When the hash is forced, the source hands the [Py_hash_t] it got
    back to [Py_DECREF], which takes it for the address of an object. *)
Definition set_tainted_object (str : Z) (tainted_object : Z) (tx_taint_map : Z) : M unit :=
  if str =? nullptr then ret tt
  else
    text <- is_text str ;;
    if negb text then ret tt
    else
      tx_taint_map <- map_or_throw tx_taint_map ;;
      let obj_id := get_unique_id str in
      m <- map_at tx_taint_map ;;
      let it := m !! obj_id in
      hash <- PyASCII_hash str ;;
      hash <- (if hash =? -1
               then
                 result <- PyObject_Hash str ;;
                 (if negb (result =? 0) then Py_DECREF result else ret tt) ;;
                 PyASCII_hash str
               else ret hash) ;;
      match it with
      | Some (cached_hash, old) =>
          if negb (old =? tainted_object)
          then
            TaintedObject.decref old ;;
            TaintedObject.incref tainted_object ;;
            store_map tx_taint_map (<[obj_id := (cached_hash, tainted_object)]> m)
          else ret tt
      | None =>
          TaintedObject.incref tainted_object ;;
          store_map tx_taint_map
            (umap_insert (to_uintptr hash) (hash, tainted_object) m)
      end.

(** The [__eq__] and [__ne__] lambdas registered on [TaintRange_]. *)
Definition TaintRange___eq__ (self other : Z) : M bool :=
  if other =? nullptr then ret false
  else
    a <- load taint_ranges self ;;
    b <- load taint_ranges other ;;
    ret ((TaintRange.start a =? TaintRange.start b)
         && (TaintRange.length a =? TaintRange.length b)).

Definition TaintRange___ne__ (self other : Z) : M bool :=
  if other =? nullptr then ret true
  else
    a <- load taint_ranges self ;;
    b <- load taint_ranges other ;;
    ret (negb (TaintRange.start a =? TaintRange.start b)
         || negb (TaintRange.length a =? TaintRange.length b)).

(** ** Derived notions used in the statements *)

(** The map a call works on: the explicit one, else the context's. *)
Definition resolve_map (tx_map : Z) (s : State) : Z :=
  if tx_map =? nullptr then tainting_map s else tx_map.

(** What [set_ranges] leaves behind when it gets past its guards. *)
Definition release (old : Z) (objs : gmap Z TaintedObjectData.t) : gmap Z TaintedObjectData.t :=
  match objs !! old with
  | Some o =>
      if TaintedObjectData.rc_ o - 1 =? 0
      then delete old objs
      else <[old := TaintedObjectData.mk (TaintedObjectData.ranges_ o)
                                         (TaintedObjectData.rc_ o - 1)]> objs
  | None => objs
  end.

(** The state [set_ranges] produces once it is past its guards: a new
    container [b] holding [rs] with one reference, the container of
    the replaced entry released, and the entry of [v] pointing at [b]. *)
Definition after_set_ranges (v : Z) (hash : Z) (rs : TaintRangeRefs) (mp : Z)
    (m : TaintRangeMapType) (s : State) : State :=
  let b := fresh_addr (tainted_objects s) in
  with_taint_maps <[mp := <[v := (hash, b)]> m]>
    (with_tainted_objects
       (λ objs, match m !! v with
                | Some (_, old) => release old (<[b := TaintedObjectData.mk rs 1]> objs)
                | None => <[b := TaintedObjectData.mk rs 1]> objs
                end) s).

(** Number of entries of a map, and of all maps of the state, that
    refer to the container at [t]. *)
Definition refs_in_map (t : Z) (m : TaintRangeMapType) : nat :=
  map_fold (λ _ (e : Z * Z) (n : nat), if e.2 =? t then S n else n) 0%nat m.

Definition map_refs (t : Z) (s : State) : nat :=
  map_fold (λ _ (m : TaintRangeMapType) n, (refs_in_map t m + n)%nat) 0%nat (taint_maps s).

(** One entry's share in [refs_in_map], and the share of the maps
    other than [mp] in [map_refs]. *)
Definition refers_to (t : Z) (_ : Z) (e : Z * Z) : nat :=
  if e.2 =? t then 1%nat else 0%nat.

Definition other_maps_refs (t : Z) (mp : Z) (maps : gmap Z TaintRangeMapType) : nat :=
  map_fold (λ _ (m : TaintRangeMapType) n, (refs_in_map t m + n)%nat) 0%nat (delete mp maps).

(** Every entry of every map refers to a live container. *)
Definition entries_live (s : State) : Prop :=
  map_Forall (λ _ (m : TaintRangeMapType),
    map_Forall (λ _ (e : Z * Z),
      e.2 ≠ nullptr ∧ is_Some (tainted_objects s !! e.2)) m) (taint_maps s).

(** The manual counter of every container is the number of map entries
    that refer to it. *)
Definition counts_ok (s : State) : Prop :=
  map_Forall (λ t (o : TaintedObjectData.t),
    TaintedObjectData.rc_ o = Z.of_nat (map_refs t s)) (tainted_objects s).

Global Instance entries_live_dec s : Decision (entries_live s).
Proof. unfold entries_live. apply _. Defined.

Global Instance counts_ok_dec s : Decision (counts_ok s).
Proof. unfold counts_ok. apply _. Defined.

(** ** Sample states *)

(** A context with map 10; the text value at 200 is tainted through
    the container at 1, the text value at 100 is not tainted yet. *)
Definition demo_state : State :=
  mkState {[ 100 := mkPyObject 1 true 7 7; 200 := mkPyObject 1 true 9 9 ]}
          {[ 50 := TaintRange.mk 0 4 (mkSource "q" 1 "abcd") ]}
          {[ 1 := TaintedObjectData.mk [50] 1 ]}
          {[ 10 := {[ 200 := (9, 1) ]} ]}
          10 1.

(** The entry of identity 100 was made for a value whose hash was 7;
    the value that now lives at 100 hashes to 8. *)
Definition stale_state : State :=
  mkState {[ 100 := mkPyObject 1 true 8 8 ]}
          {[ 50 := TaintRange.mk 0 4 (mkSource "q" 1 "abcd") ]}
          {[ 1 := TaintedObjectData.mk [50] 1 ]}
          {[ 10 := {[ 100 := (7, 1) ]} ]}
          10 1.

(** A context with an empty map and a container that no entry refers
    to yet. *)
Definition empty_map_state : State :=
  mkState {[ 100 := mkPyObject 1 true 7 7 ]}
          ∅
          {[ 1 := TaintedObjectData.mk [] 0 ]}
          {[ 10 := ∅ ]}
          10 1.

(** A pointer to a range that can be dereferenced. *)
Definition range_ok (s : State) (r : Z) : Prop :=
  r ≠ nullptr ∧ is_Some (taint_ranges s !! r).

(** A pointer to a host value that is null or can be dereferenced. *)
Definition value_ok (s : State) (v : Z) : Prop :=
  v = nullptr ∨ is_Some (py_objects s !! v).

(** The context has no map, or its map pointer can be dereferenced. *)
Definition context_map_ok (s : State) : Prop :=
  tainting_map s = nullptr ∨ is_Some (taint_maps s !! tainting_map s).

(** The answers of [is_text] and of [get_ranges] (on the context's
    map) in a state where they are defined. *)
Definition text_like (s : State) (v : Z) : bool :=
  match is_text v s with
  | Ok b _ => b
  | _ => false
  end.

Definition ranges_of (s : State) (v : Z) : TaintRangeRefs :=
  match get_ranges v (tainting_map s) s with
  | Ok rs _ => rs
  | _ => []
  end.

(** A computation that never throws, from any state. *)
Definition never_throws {A} (m : M A) : Prop :=
  ∀ s e s', m s ≠ Throw e s'.

(** A context with an empty map and three text values, none of which
    has been hashed yet; their hashes will be 7, 21 and 22. *)
Definition clean_state : State :=
  mkState {[ 100 := mkPyObject 1 true (-1) 7;
             201 := mkPyObject 1 true (-1) 21;
             202 := mkPyObject 1 true (-1) 22 ]}
          {[ 50 := TaintRange.mk 0 4 (mkSource "q" 1 "abcd") ]}
          ∅
          {[ 10 := ∅ ]}
          10 1.

(** No context has been created. *)
Definition no_context_state : State :=
  mkState {[ 100 := mkPyObject 1 true 7 7 ]} ∅ ∅ ∅ nullptr 0.

(** Three tainted text values (100, 200 and 400) and a value that is
    not text (300). *)
Definition operands_state : State :=
  mkState {[ 100 := mkPyObject 1 true 7 7; 200 := mkPyObject 1 true 9 9;
             300 := mkPyObject 1 false 3 3; 400 := mkPyObject 1 true 4 4 ]}
          {[ 50 := TaintRange.mk 0 4 (mkSource "q" 1 "abcd");
             51 := TaintRange.mk 2 3 (mkSource "h" 2 "xyz");
             52 := TaintRange.mk 0 4 (mkSource "c" 3 "wxyz") ]}
          {[ 1 := TaintedObjectData.mk [50] 1;
             2 := TaintedObjectData.mk [51] 1;
             3 := TaintedObjectData.mk [52] 1 ]}
          {[ 10 := {[ 100 := (7, 1); 200 := (9, 2); 400 := (4, 3) ]} ]}
          10 1.

(** ** Hashing, lookup by hash and recycling of ranges *)

(** Conversion to [uint] (32 bits). *)
Definition to_uint (z : Z) : Z := z mod 2 ^ 32.

Section Hashing.

(** [std::hash<uint>] is left to the C++ library, and [Source] with its
    [get_hash] and [reset] is defined in another file: the three are
    taken as they come. *)
Variable std_hash : Z → Z.
Variable Source_get_hash : Source → Z.
Variable Source_reset : Source → Source.

Definition get_hash (self : Z) : M Z :=
  r <- load taint_ranges self ;;
  let hstart := to_uint (std_hash (to_uint (TaintRange.start r))) in
  let hlength := to_uint (std_hash (to_uint (TaintRange.length r))) in
  let hsource := to_uint (std_hash (to_uint (Source_get_hash (TaintRange.source r)))) in
  ret (Z.lxor (Z.lxor hstart hlength) hsource).

Fixpoint by_hash_loop (range_hash : Z) (todo : TaintRangeRefs) : M Z :=
  match todo with
  | [] => ret nullptr
  | range :: rest =>
      h <- get_hash range ;;
      if range_hash =? h then ret range else by_hash_loop range_hash rest
  end.

Definition get_range_by_hash (range_hash : Z) (taint_ranges : option TaintRangeRefs)
    : M Z :=
  match taint_ranges with
  | None => ret nullptr
  | Some ranges =>
      if bool_decide (ranges = []) then ret nullptr
      else by_hash_loop range_hash ranges
  end.

(** [TaintRange::reset] *)
Definition reset (self : Z) : M unit :=
  r <- load taint_ranges self ;;
  λ s, Ok tt (with_taint_ranges
                <[self := TaintRange.mk 0 0 (Source_reset (TaintRange.source r))]> s).

End Hashing.

(** A computation that, from any state, either has no defined result
    or returns in the state it started from. *)
Definition read_only {A} (m : M A) : Prop :=
  ∀ s, m s = Undefined ∨ ∃ a, m s = Ok a s.


(** Stand-ins for the hashing left open above: [std::hash] as the
    identity, the hash of a source as its origin, and a cleared
    source. *)
Definition sample_std_hash (z : Z) : Z := z.
Definition sample_source_hash (src : Source) : Z := origin src.
Definition sample_source_reset (_ : Source) : Source := mkSource "" 0 "".

(** Ranges that differ in the order of start and length (60 and 61),
    by a multiple of 2^32 in the start (60 and 62) and in the source
    only (60 and 63). *)
Definition hash_state : State :=
  mkState ∅
          {[ 60 := TaintRange.mk 0 4 (mkSource "q" 1 "abcd");
             61 := TaintRange.mk 4 0 (mkSource "q" 1 "abcd");
             62 := TaintRange.mk (2 ^ 32) 4 (mkSource "q" 1 "abcd");
             63 := TaintRange.mk 0 4 (mkSource "c" 3 "wxyz") ]}
          ∅ ∅ nullptr 0.

(** A range that starts at the largest value of [RANGE_START]. *)
Definition overflow_state : State :=
  mkState ∅ {[ 70 := TaintRange.mk (2 ^ 63 - 1) 1 (mkSource "q" 1 "a") ]} ∅ ∅ nullptr 0.

(** * Basic facts *)

Section Computations.
Context {A B : Type}.

Lemma bind_ok (m : M A) (k : A → M B) s a s' :
  m s = Ok a s' → bind m k s = k a s'.
Proof. unfold bind. by intros ->. Qed.

Lemma load_ok (store : State → gmap Z A) p s a :
  p ≠ nullptr → store s !! p = Some a → load store p s = Ok a s.
Proof.
  intros Hp Ha. unfold load.
  destruct (Z.eqb_spec p nullptr) as [?|_]; [done|]. by rewrite Ha.
Qed.

Lemma fresh_addr_bound (store : gmap Z A) k :
  is_Some (store !! k) → k < fresh_addr store.
Proof.
  intros Hk. unfold fresh_addr.
  cut (k ≤ map_fold (λ k' (_ : A) acc, Z.max k' acc) 0 store); [lia|].
  revert k Hk.
  apply (map_fold_weak_ind (λ r (m : gmap Z A), ∀ k, is_Some (m !! k) → k ≤ r)).
  - intros k [x Hx]. by rewrite lookup_empty in Hx.
  - intros i x m r _ IH k [y Hy].
    destruct (decide (i = k)) as [->|Hne]; [lia|].
    rewrite lookup_insert_ne in Hy by done.
    specialize (IH k (ex_intro _ y Hy)). lia.
Qed.

Lemma fresh_addr_None (store : gmap Z A) : store !! fresh_addr store = None.
Proof.
  destruct (store !! fresh_addr store) eqn:E; [|done].
  pose proof (fresh_addr_bound store (fresh_addr store) (ex_intro _ _ E)). lia.
Qed.

Lemma fresh_addr_pos (store : gmap Z A) : 0 < fresh_addr store.
Proof.
  unfold fresh_addr.
  cut (0 ≤ map_fold (λ k' (_ : A) acc, Z.max k' acc) 0 store); [lia|].
  apply (map_fold_weak_ind (λ r (_ : gmap Z A), 0 ≤ r)); intros; lia.
Qed.

Lemma fresh_addr_nonnull (store : gmap Z A) : fresh_addr store ≠ nullptr.
Proof. pose proof (fresh_addr_pos store). unfold nullptr. lia. Qed.

End Computations.

Lemma is_text_ok s v o :
  v ≠ nullptr → py_objects s !! v = Some o → is_text v s = Ok (ob_text o) s.
Proof.
  intros Hv Ho. unfold is_text.
  destruct (Z.eqb_spec v nullptr) as [?|_]; [done|].
  by rewrite (bind_ok _ _ _ _ _ (load_ok py_objects v s o Hv Ho)).
Qed.

Lemma PyASCII_hash_ok s v o :
  v ≠ nullptr → py_objects s !! v = Some o → PyASCII_hash v s = Ok (ob_hash o) s.
Proof.
  intros Hv Ho. unfold PyASCII_hash.
  by rewrite (bind_ok _ _ _ _ _ (load_ok py_objects v s o Hv Ho)).
Qed.

Lemma map_or_throw_ok tx s :
  resolve_map tx s ≠ nullptr → map_or_throw tx s = Ok (resolve_map tx s) s.
Proof.
  unfold map_or_throw, resolve_map, Initializer.get_tainting_map, bind, ret.
  destruct (tx =? nullptr); [|done].
  intros H. by destruct (Z.eqb_spec (tainting_map s) nullptr).
Qed.

Lemma map_at_ok mp s m :
  mp ≠ nullptr → taint_maps s !! mp = Some m → map_at mp s = Ok m s.
Proof. apply load_ok. Qed.

Lemma is_empty_map_lookup k e (m : TaintRangeMapType) :
  m !! k = Some e → is_empty_map m = false.
Proof.
  intros H. unfold is_empty_map. apply bool_decide_eq_false.
  intros ->. by rewrite lookup_empty in H.
Qed.

Lemma umap_insert_None k e (m : TaintRangeMapType) :
  m !! k = None → umap_insert k e m = <[k:=e]> m.
Proof. unfold umap_insert. by intros ->. Qed.

Lemma incref_ok s p o :
  p ≠ nullptr → tainted_objects s !! p = Some o →
  TaintedObject.incref p s =
    Ok tt (with_tainted_objects
             <[p := TaintedObjectData.mk (TaintedObjectData.ranges_ o)
                                         (TaintedObjectData.rc_ o + 1)]> s).
Proof.
  intros Hp Ho. unfold TaintedObject.incref.
  by rewrite (bind_ok _ _ _ _ _ (load_ok tainted_objects p s o Hp Ho)).
Qed.

Lemma decref_ok s p o :
  p ≠ nullptr → tainted_objects s !! p = Some o →
  TaintedObject.decref p s = Ok tt (with_tainted_objects (release p) s).
Proof.
  intros Hp Ho. unfold TaintedObject.decref.
  rewrite (bind_ok _ _ _ _ _ (load_ok tainted_objects p s o Hp Ho)).
  unfold with_tainted_objects, release. rewrite Ho.
  by destruct (_ =? 0).
Qed.

Lemma get_ranges_of_object_ok s p o :
  p ≠ nullptr → tainted_objects s !! p = Some o →
  TaintedObject.get_ranges p s = Ok (TaintedObjectData.ranges_ o) s.
Proof.
  intros Hp Ho. unfold TaintedObject.get_ranges.
  by rewrite (bind_ok _ _ _ _ _ (load_ok tainted_objects p s o Hp Ho)).
Qed.

Lemma release_lookup_ne old p objs :
  p ≠ old → release old objs !! p = objs !! p.
Proof.
  intros Hne. unfold release. destruct (objs !! old) as [o|]; [|done].
  destruct (_ =? 0); [by rewrite lookup_delete_ne|by rewrite lookup_insert_ne].
Qed.

(** * [set_ranges] and [get_ranges] *)

Lemma set_ranges_run s v o rs tx m :
  v ≠ nullptr → py_objects s !! v = Some o → ob_text o = true →
  rs ≠ [] →
  ctx_id s ≠ 0 →
  resolve_map tx s ≠ nullptr → taint_maps s !! resolve_map tx s = Some m →
  (∀ h old, m !! v = Some (h, old) →
            old ≠ nullptr ∧ is_Some (tainted_objects s !! old)) →
  set_ranges v rs tx s
  = Ok tt (after_set_ranges v (ob_hash o) rs (resolve_map tx s) m s).
Proof.
  intros Hv Ho Htext Hrs Hctx Hmp Hm Hold.
  unfold set_ranges.
  rewrite (bind_ok _ _ _ _ _ (is_text_ok s v o Hv Ho)), Htext. simpl.
  rewrite bool_decide_eq_false_2 by done.
  rewrite (bind_ok _ _ _ _ _ (map_or_throw_ok tx s Hmp)).
  unfold Initializer.context_id at 1. unfold bind at 1.
  destruct (Z.eqb_spec (ctx_id s) 0) as [?|_]; [done|].
  rewrite (bind_ok _ _ _ _ _ (map_at_ok _ s m Hmp Hm)).
  unfold Initializer.allocate_ranges_into_taint_object. unfold bind at 1.
  set (b := fresh_addr (tainted_objects s)).
  set (s1 := with_tainted_objects _ s).
  assert (Hb0 : b ≠ nullptr) by apply fresh_addr_nonnull.
  rewrite (bind_ok _ _ _ _ _ (PyASCII_hash_ok s1 v o Hv Ho)).
  assert (Hb1 : tainted_objects s1 !! b = Some (TaintedObjectData.mk rs 0))
    by (simpl; apply lookup_insert_eq).
  rewrite (bind_ok _ _ _ _ _ (incref_ok s1 b _ Hb0 Hb1)).
  set (s2 := with_tainted_objects _ s1).
  unfold get_unique_id, after_set_ranges. fold b.
  destruct (m !! v) as [[h old]|] eqn:Hlook.
  - destruct (Hold h old eq_refl) as [Hold0 [oo Hoo]].
    assert (Hne : old ≠ b).
    { intros ->. subst b. by rewrite fresh_addr_None in Hoo. }
    assert (Hold2 : tainted_objects s2 !! old = Some oo).
    { simpl. by rewrite !lookup_insert_ne. }
    rewrite (bind_ok _ _ _ _ _ (decref_ok s2 old oo Hold0 Hold2)).
    unfold store_map, with_taint_maps, with_tainted_objects. simpl.
    by rewrite insert_insert_eq.
  - rewrite umap_insert_None by done.
    unfold store_map, with_taint_maps, with_tainted_objects. simpl.
    by rewrite insert_insert_eq.
Qed.

Lemma after_set_ranges_new_object v hash rs mp m s :
  (∀ h old, m !! v = Some (h, old) → is_Some (tainted_objects s !! old)) →
  tainted_objects (after_set_ranges v hash rs mp m s) !! fresh_addr (tainted_objects s)
  = Some (TaintedObjectData.mk rs 1).
Proof.
  intros Hold. unfold after_set_ranges. simpl.
  destruct (m !! v) as [[h old]|] eqn:Hlook; [|apply lookup_insert_eq].
  destruct (Hold h old eq_refl) as [oo Hoo].
  rewrite release_lookup_ne; [apply lookup_insert_eq|].
  intros Heq. rewrite <- Heq in Hoo. by rewrite fresh_addr_None in Hoo.
Qed.

Lemma get_ranges_hit s v o tx m tobj to :
  v ≠ nullptr → py_objects s !! v = Some o → ob_text o = true →
  resolve_map tx s ≠ nullptr → taint_maps s !! resolve_map tx s = Some m →
  m !! v = Some (ob_hash o, tobj) →
  tobj ≠ nullptr → tainted_objects s !! tobj = Some to →
  get_ranges v tx s = Ok (TaintedObjectData.ranges_ to) s.
Proof.
  intros Hv Ho Htext Hmp Hm Hentry Ht0 Hto.
  unfold get_ranges.
  rewrite (bind_ok _ _ _ _ _ (is_text_ok s v o Hv Ho)), Htext. simpl.
  assert (Hres : (if tx =? nullptr then Initializer.get_tainting_map else ret tx) s
                 = Ok (resolve_map tx s) s).
  { unfold resolve_map. by destruct (tx =? nullptr). }
  rewrite (bind_ok _ _ _ _ _ Hres).
  destruct (Z.eqb_spec (resolve_map tx s) nullptr) as [?|_]; [done|].
  rewrite (bind_ok _ _ _ _ _ (map_at_ok _ s m Hmp Hm)).
  rewrite (is_empty_map_lookup _ _ _ Hentry).
  unfold get_unique_id. rewrite Hentry.
  rewrite (bind_ok _ _ _ _ _ (PyASCII_hash_ok s v o Hv Ho)).
  rewrite Z.eqb_refl. simpl.
  by apply get_ranges_of_object_ok.
Qed.

(** X27: the round trip of two calls in a row: in an active context,
    with a map that can be resolved and whose entry for the value, if
    there is one, refers to a live container, the [get_ranges v] that
    immediately follows [set_ranges v rs] on the same map returns
    exactly [rs]. *)
Theorem set_get_ranges_roundtrip s v o rs tx m :
  v ≠ nullptr → py_objects s !! v = Some o → ob_text o = true →
  rs ≠ [] →
  ctx_id s ≠ 0 →
  resolve_map tx s ≠ nullptr → taint_maps s !! resolve_map tx s = Some m →
  (∀ h old, m !! get_unique_id v = Some (h, old) →
            old ≠ nullptr ∧ is_Some (tainted_objects s !! old)) →
  ∃ s', set_ranges v rs tx s = Ok tt s' ∧ get_ranges v tx s' = Ok rs s'.
Proof.
  intros Hv Ho Htext Hrs Hctx Hmp Hm Hold.
  eexists. split; [by eapply set_ranges_run|].
  set (s' := after_set_ranges _ _ _ _ _ _).
  assert (Hres : resolve_map tx s' = resolve_map tx s) by done.
  apply (get_ranges_hit s' v o tx (<[v := (ob_hash o, fresh_addr (tainted_objects s))]> m)
           (fresh_addr (tainted_objects s)) (TaintedObjectData.mk rs 1)); try done.
  - rewrite Hres. simpl. apply lookup_insert_eq.
  - apply lookup_insert_eq.
  - apply fresh_addr_nonnull.
  - apply after_set_ranges_new_object. intros h old H. by destruct (Hold h old H).
Qed.

(** * Counting references *)

Section FoldSum.
Context {V : Type} (f : Z → V → nat → nat) (g : Z → V → nat).
Hypothesis f_sum : ∀ k x n, f k x n = (g k x + n)%nat.

Lemma fold_sum_insert_fresh (m : gmap Z V) i x :
  m !! i = None → map_fold f 0%nat (<[i:=x]> m) = (g i x + map_fold f 0%nat m)%nat.
Proof.
  intros Hi. rewrite map_fold_insert_L; [apply f_sum| |done].
  intros. rewrite !f_sum. lia.
Qed.

Lemma fold_sum_insert (m : gmap Z V) i x :
  map_fold f 0%nat (<[i:=x]> m) = (g i x + map_fold f 0%nat (delete i m))%nat.
Proof.
  rewrite <- insert_delete_eq. apply fold_sum_insert_fresh, lookup_delete_eq.
Qed.

Lemma fold_sum_lookup (m : gmap Z V) i x :
  m !! i = Some x → map_fold f 0%nat m = (g i x + map_fold f 0%nat (delete i m))%nat.
Proof.
  intros Hi. rewrite <- (insert_delete_id m i x) at 1 by done.
  apply fold_sum_insert_fresh, lookup_delete_eq.
Qed.

Lemma fold_sum_zero (m : gmap Z V) :
  (∀ k x, m !! k = Some x → g k x = 0%nat) → map_fold f 0%nat m = 0%nat.
Proof.
  apply (map_fold_weak_ind
           (λ r (m : gmap Z V), (∀ k x, m !! k = Some x → g k x = 0%nat) → r = 0%nat)).
  - done.
  - intros i x m' r Hi IH Hall. rewrite f_sum.
    rewrite (Hall i x) by apply lookup_insert_eq. simpl. apply IH.
    intros k y Hk. apply (Hall k y).
    rewrite lookup_insert_ne; [done|]. intros ->. by rewrite Hi in Hk.
Qed.

End FoldSum.

Lemma refs_in_map_step t (k : Z) (e : Z * Z) (n : nat) :
  (if e.2 =? t then S n else n) = (refers_to t k e + n)%nat.
Proof. unfold refers_to. by destruct (_ =? _). Qed.

Lemma refs_in_map_insert t k e (m : TaintRangeMapType) :
  refs_in_map t (<[k:=e]> m) = (refers_to t k e + refs_in_map t (delete k m))%nat.
Proof. apply (fold_sum_insert _ _ (refs_in_map_step t)). Qed.

Lemma refs_in_map_lookup t k e (m : TaintRangeMapType) :
  m !! k = Some e → refs_in_map t m = (refers_to t k e + refs_in_map t (delete k m))%nat.
Proof. apply (fold_sum_lookup _ _ (refs_in_map_step t)). Qed.

Lemma refs_in_map_zero t (m : TaintRangeMapType) :
  (∀ k e, m !! k = Some e → e.2 ≠ t) → refs_in_map t m = 0%nat.
Proof.
  intros Hall. apply (fold_sum_zero _ _ (refs_in_map_step t)).
  intros k e Hk. unfold refers_to.
  destruct (Z.eqb_spec e.2 t) as [Heq|]; [|done]. by destruct (Hall k e Hk).
Qed.

Lemma refers_to_eq t k h : refers_to t k (h, t) = 1%nat.
Proof. unfold refers_to. simpl. by rewrite Z.eqb_refl. Qed.

Lemma map_refs_lookup t s mp m :
  taint_maps s !! mp = Some m →
  map_refs t s = (refs_in_map t m + other_maps_refs t mp (taint_maps s))%nat.
Proof.
  apply (fold_sum_lookup _ (λ _ m, refs_in_map t m)). done.
Qed.


(** Two different entries that refer to the same container make its
    reference number at least two. *)
Lemma map_refs_two t s mp1 m1 k1 h1 mp2 m2 k2 h2 :
  taint_maps s !! mp1 = Some m1 → m1 !! k1 = Some (h1, t) →
  taint_maps s !! mp2 = Some m2 → m2 !! k2 = Some (h2, t) →
  mp1 ≠ mp2 ∨ k1 ≠ k2 →
  (2 ≤ map_refs t s)%nat.
Proof.
  intros Hm1 Hk1 Hm2 Hk2 Hne.
  rewrite (map_refs_lookup t s mp1 m1 Hm1).
  rewrite (refs_in_map_lookup t k1 (h1, t) m1 Hk1), refers_to_eq.
  destruct (decide (mp1 = mp2)) as [->|Hmp].
  - assert (m1 = m2) by congruence. subst m2.
    assert (k2 ≠ k1) by (destruct Hne; congruence).
    rewrite (refs_in_map_lookup t k2 (h2, t) (delete k1 m1)), refers_to_eq; [lia|].
    by rewrite lookup_delete_ne.
  - unfold other_maps_refs.
    rewrite (fold_sum_lookup _ (λ _ m, refs_in_map t m) (λ _ _ _, eq_refl)
               (delete mp1 (taint_maps s)) mp2 m2)
      by (by rewrite lookup_delete_ne).
    rewrite (refs_in_map_lookup t k2 (h2, t) m2 Hk2), refers_to_eq. lia.
Qed.

(** * Re-tainting *)

Lemma after_set_ranges_maps v hash rs mp m s :
  taint_maps (after_set_ranges v hash rs mp m s)
  = <[mp := <[v := (hash, fresh_addr (tainted_objects s))]> m]> (taint_maps s).
Proof. done. Qed.

Lemma after_set_ranges_objects v hash rs mp m s h old :
  m !! v = Some (h, old) →
  tainted_objects (after_set_ranges v hash rs mp m s)
  = release old (<[fresh_addr (tainted_objects s) := TaintedObjectData.mk rs 1]>
                   (tainted_objects s)).
Proof. intros Hk. unfold after_set_ranges. simpl. by rewrite Hk. Qed.



(** * Stale and absent identities *)

Lemma resolve_in_get_ranges tx s :
  (if tx =? nullptr then Initializer.get_tainting_map else ret tx) s
  = Ok (resolve_map tx s) s.
Proof. unfold resolve_map. by destruct (tx =? nullptr). Qed.

Lemma get_ranges_stale s v o tx m cached tobj :
  v ≠ nullptr → py_objects s !! v = Some o →
  resolve_map tx s ≠ nullptr → taint_maps s !! resolve_map tx s = Some m →
  m !! get_unique_id v = Some (cached, tobj) → ob_hash o ≠ cached →
  get_ranges v tx s = Ok [] s.
Proof.
  intros Hv Ho Hmp Hm Hentry Hhash. unfold get_ranges.
  rewrite (bind_ok _ _ _ _ _ (is_text_ok s v o Hv Ho)).
  destruct (ob_text o); [simpl|done].
  rewrite (bind_ok _ _ _ _ _ (resolve_in_get_ranges tx s)).
  destruct (Z.eqb_spec (resolve_map tx s) nullptr) as [?|_]; [done|].
  rewrite (bind_ok _ _ _ _ _ (map_at_ok _ s m Hmp Hm)).
  rewrite (is_empty_map_lookup _ _ _ Hentry), Hentry.
  rewrite (bind_ok _ _ _ _ _ (PyASCII_hash_ok s v o Hv Ho)).
  by destruct (Z.eqb_spec (ob_hash o) cached).
Qed.

Lemma get_tainted_object_stale s v o tx m cached tobj to :
  v ≠ nullptr → py_objects s !! v = Some o →
  resolve_map tx s ≠ nullptr → taint_maps s !! resolve_map tx s = Some m →
  m !! get_unique_id v = Some (cached, tobj) → ob_hash o ≠ cached →
  tobj ≠ nullptr → tainted_objects s !! tobj = Some to →
  get_tainted_object v tx s = Ok nullptr (with_tainted_objects (release tobj) s).
Proof.
  intros Hv Ho Hmp Hm Hentry Hhash Ht Hto. unfold get_tainted_object.
  destruct (Z.eqb_spec v nullptr) as [?|_]; [done|].
  rewrite (bind_ok _ _ _ _ _ (map_or_throw_ok tx s Hmp)).
  rewrite (bind_ok _ _ _ _ _ (map_at_ok _ s m Hmp Hm)).
  rewrite (is_empty_map_lookup _ _ _ Hentry), Hentry.
  rewrite (bind_ok _ _ _ _ _ (PyASCII_hash_ok s v o Hv Ho)).
  destruct (Z.eqb_spec (ob_hash o) cached) as [?|_]; [done|]. simpl.
  by rewrite (bind_ok _ _ _ _ _ (decref_ok s tobj to Ht Hto)).
Qed.

(** X25: a stale entry reads as no taint through [get_ranges]: when
    the identity of a value is in the map with a cached hash that
    differs from the value's hash, [get_ranges] returns the empty
    sequence and changes nothing, whatever the entry points to. *)
Theorem get_ranges_stale_read_only s v o tx m cached tobj :
  v ≠ nullptr → py_objects s !! v = Some o →
  resolve_map tx s ≠ nullptr → taint_maps s !! resolve_map tx s = Some m →
  m !! get_unique_id v = Some (cached, tobj) → ob_hash o ≠ cached →
  get_ranges v tx s = Ok [] s.
Proof. apply get_ranges_stale. Qed.

(** X26: what [get_tainted_object] does with a stale entry: when the
    identity of a value is in the map with a cached hash that differs
    from the value's hash and the entry refers to a live container,
    the call returns null without an error, leaves every map as it
    was, so that the stale entry stays, and takes one reference off
    the container, which is destroyed when its count was one. *)
Theorem stale_get_tainted_object_decrements s v o tx m cached tobj to :
  v ≠ nullptr → py_objects s !! v = Some o →
  resolve_map tx s ≠ nullptr → taint_maps s !! resolve_map tx s = Some m →
  m !! get_unique_id v = Some (cached, tobj) → ob_hash o ≠ cached →
  tobj ≠ nullptr → tainted_objects s !! tobj = Some to →
  ∃ s', get_tainted_object v tx s = Ok nullptr s'
        ∧ taint_maps s' = taint_maps s
        ∧ py_objects s' = py_objects s
        ∧ tainted_objects s' !! tobj
          = (if TaintedObjectData.rc_ to =? 1 then None
             else Some (TaintedObjectData.mk (TaintedObjectData.ranges_ to)
                                             (TaintedObjectData.rc_ to - 1)))
        ∧ ∀ p, p ≠ tobj → tainted_objects s' !! p = tainted_objects s !! p.
Proof.
  intros Hv Ho Hmp Hm Hentry Hhash Ht Hto.
  eexists. split; [by eapply get_tainted_object_stale|].
  repeat split.
  - simpl. unfold release. rewrite Hto.
    destruct (Z.eqb_spec (TaintedObjectData.rc_ to - 1) 0) as [H0|H0];
      destruct (Z.eqb_spec (TaintedObjectData.rc_ to) 1) as [H1|H1]; try lia.
    + apply lookup_delete_eq.
    + apply lookup_insert_eq.
  - intros p Hp. simpl. by apply release_lookup_ne.
Qed.

(** C3 (a stale entry is treated as absent, without side effects): in
    [stale_state] the identity 100 is in the map with cached hash 7
    and the value there hashes to 8.  [get_ranges] returns the empty
    sequence and changes nothing, but [get_tainted_object] takes the
    only reference off the stored container, which is destroyed,
    while the entry stays in the map and now dangles: the next lookup
    of the value has no defined result. *)
Theorem stale_get_tainted_object_decrefs :
  (∃ m, taint_maps stale_state !! resolve_map 0 stale_state = Some m
        ∧ m !! get_unique_id 100 = Some (7, 1))
  ∧ PyASCII_hash 100 stale_state = Ok 8 stale_state
  ∧ tainted_objects stale_state !! 1 = Some (TaintedObjectData.mk [50] 1)
  ∧ get_ranges 100 0 stale_state = Ok [] stale_state
  ∧ ∃ s', get_tainted_object 100 0 stale_state = Ok nullptr s'
          ∧ tainted_objects s' !! 1 = None
          ∧ taint_maps s' = taint_maps stale_state
          ∧ get_tainted_object 100 0 s' = Undefined.
Proof.
  split; [by exists {[ 100 := (7, 1) ]}|].
  split; [reflexivity|]. split; [reflexivity|]. split; [reflexivity|].
  eexists. split; [vm_compute; reflexivity|].
  split; [reflexivity|]. split; reflexivity.
Qed.

Lemma get_tainted_object_absent s v o tx m :
  v ≠ nullptr → py_objects s !! v = Some o →
  resolve_map tx s ≠ nullptr → taint_maps s !! resolve_map tx s = Some m →
  m ≠ ∅ → m !! get_unique_id v = None →
  get_tainted_object v tx s = Undefined.
Proof.
  intros Hv Ho Hmp Hm Hne Hentry. unfold get_tainted_object.
  destruct (Z.eqb_spec v nullptr) as [?|_]; [done|].
  rewrite (bind_ok _ _ _ _ _ (map_or_throw_ok tx s Hmp)).
  rewrite (bind_ok _ _ _ _ _ (map_at_ok _ s m Hmp Hm)).
  unfold is_empty_map. rewrite bool_decide_eq_false_2 by done.
  rewrite Hentry.
  by rewrite (bind_ok _ _ _ _ _ (PyASCII_hash_ok s v o Hv Ho)).
Qed.

(** C5 (absent identity): in [demo_state] the map is not empty and has
    no entry for the value at 100; [get_tainted_object] reads the
    cached hash through the iterator before comparing it with [end()],
    so the call has no defined result instead of returning null. *)
Theorem get_tainted_object_absent_reads_end :
  (∃ m, taint_maps demo_state !! resolve_map 0 demo_state = Some m
        ∧ m ≠ ∅ ∧ m !! get_unique_id 100 = None)
  ∧ get_tainted_object 100 0 demo_state = Undefined.
Proof.
  split; [|reflexivity].
  exists {[ 200 := (9, 1) ]}. split; [done|]. split; [|done].
  apply insert_non_empty.
Qed.


(** C2 (identity-keyed entry): on an empty map [set_tainted_object]
    files the entry of the value at address 100 under the value's hash
    7, not under its identity, and the lookup of the same value that
    follows does not find the stored container. *)
Theorem set_tainted_object_keys_by_hash :
  ∃ s', set_tainted_object 100 1 0 empty_map_state = Ok tt s'
        ∧ taint_maps s' !! 10 = Some {[ 7 := (7, 1) ]}
        ∧ ({[ 7 := (7, 1) ]} : TaintRangeMapType) !! get_unique_id 100 = None
        ∧ get_tainted_object 100 0 s' = Undefined.
Proof.
  eexists. split; [vm_compute; reflexivity|].
  split; [reflexivity|]. split; reflexivity.
Qed.

(** * Re-setting the same container *)

(** X29: re-setting the same container of a hashed value is neutral:
    when the hash of a text value has been computed and the entry of
    the value already refers to the container passed in,
    [set_tainted_object] returns and leaves the whole state as it
    was: no counter moves and the entry keeps its pointer. *)
Theorem set_tainted_object_same_object s v o tx m cached t :
  v ≠ nullptr → py_objects s !! v = Some o → ob_text o = true →
  ob_hash o ≠ -1 →
  resolve_map tx s ≠ nullptr → taint_maps s !! resolve_map tx s = Some m →
  m !! get_unique_id v = Some (cached, t) →
  set_tainted_object v t tx s = Ok tt s.
Proof.
  intros Hv Ho Htext Hhash Hmp Hm Hentry. unfold set_tainted_object.
  destruct (Z.eqb_spec v nullptr) as [?|_]; [done|].
  rewrite (bind_ok _ _ _ _ _ (is_text_ok s v o Hv Ho)), Htext. simpl.
  rewrite (bind_ok _ _ _ _ _ (map_or_throw_ok tx s Hmp)).
  rewrite (bind_ok _ _ _ _ _ (map_at_ok _ s m Hmp Hm)).
  rewrite (bind_ok _ _ _ _ _ (PyASCII_hash_ok s v o Hv Ho)).
  rewrite Hentry.
  destruct (Z.eqb_spec (ob_hash o) (-1)) as [?|_]; [done|].
  unfold bind at 1. unfold ret at 1.
  by rewrite Z.eqb_refl.
Qed.

(** * Comparison of ranges *)

(** C9 (comparison is total and consistent): for a range [r],
    [__eq__] against null is false and [__ne__] against null is true;
    against another range [q], [__eq__] compares the starts and the
    lengths and nothing else, and [__ne__] is its negation. *)
Theorem TaintRange_eq_ne_consistent s r rr :
  r ≠ nullptr → taint_ranges s !! r = Some rr →
  TaintRange___eq__ r nullptr s = Ok false s
  ∧ TaintRange___ne__ r nullptr s = Ok true s
  ∧ ∀ q qq, q ≠ nullptr → taint_ranges s !! q = Some qq →
      let same := bool_decide ((TaintRange.start rr, TaintRange.length rr)
                               = (TaintRange.start qq, TaintRange.length qq)) in
      TaintRange___eq__ r q s = Ok same s
      ∧ TaintRange___ne__ r q s = Ok (negb same) s.
Proof.
  intros Hr Hrr. split; [done|]. split; [done|].
  intros q qq Hq Hqq same.
  unfold TaintRange___eq__, TaintRange___ne__.
  destruct (Z.eqb_spec q nullptr) as [?|_]; [done|].
  rewrite !(bind_ok _ _ _ _ _ (load_ok taint_ranges r s rr Hr Hrr)).
  rewrite !(bind_ok _ _ _ _ _ (load_ok taint_ranges q s qq Hq Hqq)).
  unfold ret, same.
  destruct (Z.eqb_spec (TaintRange.start rr) (TaintRange.start qq)) as [Hs|Hs];
    destruct (Z.eqb_spec (TaintRange.length rr) (TaintRange.length qq)) as [Hl|Hl];
    simpl.
  - rewrite bool_decide_eq_true_2 by congruence. done.
  - rewrite bool_decide_eq_false_2 by congruence. done.
  - rewrite bool_decide_eq_false_2 by congruence. done.
  - rewrite bool_decide_eq_false_2 by congruence. done.
Qed.

(** * Shifting *)

Lemma api_shift_taint_range_ok s r rr o :
  r ≠ nullptr → taint_ranges s !! r = Some rr →
  api_shift_taint_range r o s
  = Ok (fresh_addr (taint_ranges s))
       (with_taint_ranges
          <[fresh_addr (taint_ranges s) :=
              TaintRange.mk (wrap_long (TaintRange.start rr + o)) (TaintRange.length rr)
                            (TaintRange.source rr)]> s).
Proof.
  intros Hr Hrr. unfold api_shift_taint_range.
  by rewrite (bind_ok _ _ _ _ _ (load_ok taint_ranges r s rr Hr Hrr)).
Qed.

(** The loop of [api_shift_taint_ranges], from any state and any
    prefix already built. *)
Lemma shift_loop_ok o todo : ∀ s acc,
  Forall (range_ok s) todo →
  ∃ ps s',
    shift_loop todo o acc s = Ok (acc ++ ps) s'
    ∧ (∀ q x, taint_ranges s !! q = Some x → taint_ranges s' !! q = Some x)
    ∧ py_objects s' = py_objects s
    ∧ tainted_objects s' = tainted_objects s
    ∧ taint_maps s' = taint_maps s
    ∧ List.length ps = List.length todo
    ∧ ∀ (i : nat) r, todo !! i = Some r →
        ∃ p rr, ps !! i = Some p
                ∧ taint_ranges s !! p = None
                ∧ taint_ranges s !! r = Some rr
                ∧ taint_ranges s' !! p
                  = Some (TaintRange.mk (wrap_long (TaintRange.start rr + o))
                                        (TaintRange.length rr)
                                        (TaintRange.source rr)).
Proof.
  induction todo as [|r todo IH]; intros s acc Hall.
  - exists [], s. simpl. rewrite app_nil_r. repeat split; try done.
  - pose proof Hall as Hall0.
    apply Forall_cons in Hall as [[Hr [rr Hrr]] Hall].
    set (p := fresh_addr (taint_ranges s)).
    set (new := TaintRange.mk (wrap_long (TaintRange.start rr + o)) (TaintRange.length rr)
                              (TaintRange.source rr)).
    set (s1 := with_taint_ranges <[p := new]> s).
    assert (Hp : taint_ranges s !! p = None) by apply fresh_addr_None.
    assert (Hkeep : ∀ q x, taint_ranges s !! q = Some x → taint_ranges s1 !! q = Some x).
    { intros q x Hq. unfold s1. simpl. rewrite lookup_insert_ne; [done|].
      intros <-. by rewrite Hp in Hq. }
    assert (Hall1 : Forall (range_ok s1) todo).
    { eapply Forall_impl; [exact Hall|]. intros q [Hq [x Hx]].
      split; [done|]. exists x. by apply Hkeep. }
    destruct (IH s1 (acc ++ [p]) Hall1)
      as (ps & s' & Hrun & Hpres & Hpy & Hobj & Hmaps & Hlen & Helem).
    exists (p :: ps), s'.
    assert (Hstep : shift_loop (r :: todo) o acc s = Ok (acc ++ p :: ps) s').
    { simpl. rewrite (bind_ok _ _ _ _ _ (api_shift_taint_range_ok s r rr o Hr Hrr)).
      fold p new s1. by rewrite Hrun, <- app_assoc. }
    split; [exact Hstep|].
    split; [intros q x Hq; by apply Hpres, Hkeep|].
    split; [done|]. split; [done|]. split; [done|].
    split; [simpl; by rewrite Hlen|].
    intros [|i] q Hq.
    + injection Hq as <-. exists p, rr. repeat split; try done.
      apply Hpres. unfold s1. simpl. apply lookup_insert_eq.
    + change (todo !! i = Some q) in Hq.
      destruct (Helem i q Hq) as (p' & x & Hp' & Hfresh & Hx & Hnew).
      destruct (proj1 (Forall_lookup (range_ok s) todo) Hall i q Hq) as [_ [x0 Hx0]].
      assert (x = x0) by (pose proof (Hkeep q x0 Hx0); congruence). subst x0.
      exists p', x. repeat split; try done.
      destruct (taint_ranges s !! p') eqn:E; [|done].
      by rewrite (Hkeep _ _ E) in Hfresh.
Qed.

Lemma wrap_long_id z : is_long z → wrap_long z = z.
Proof.
  unfold is_long, wrap_long. intros Hz.
  rewrite Z.mod_small; lia.
Qed.

(** C7, as amended (shift correctness): [api_shift_taint_range r o]
    allocates a new range whose start is [r]'s start plus [o] in the
    arithmetic of [RANGE_START], that is the sum itself when it fits
    the type and the sum wrapped around otherwise, and whose length
    and source are [r]'s; it leaves [r] and every other range as they
    were.  [api_shift_taint_ranges rs o] returns a sequence as long as
    [rs] whose i-th element is a new range with the contents of the
    i-th element of [rs] shifted in the same way. *)
Theorem shift_correct s o r rr rs :
  r ≠ nullptr → taint_ranges s !! r = Some rr →
  Forall (range_ok s) rs →
  (∃ p s',
     api_shift_taint_range r o s = Ok p s'
     ∧ taint_ranges s !! p = None
     ∧ (∃ new, taint_ranges s' !! p = Some new
               ∧ TaintRange.start new = wrap_long (TaintRange.start rr + o)
               ∧ (is_long (TaintRange.start rr + o)
                  → TaintRange.start new = TaintRange.start rr + o)
               ∧ TaintRange.length new = TaintRange.length rr
               ∧ TaintRange.source new = TaintRange.source rr)
     ∧ taint_ranges s' !! r = Some rr
     ∧ ∀ q x, taint_ranges s !! q = Some x → taint_ranges s' !! q = Some x)
  ∧ (∃ ps s',
       api_shift_taint_ranges rs o s = Ok ps s'
       ∧ List.length ps = List.length rs
       ∧ (∀ q x, taint_ranges s !! q = Some x → taint_ranges s' !! q = Some x)
       ∧ ∀ (i : nat) ri, rs !! i = Some ri →
           ∃ pi rri new,
             ps !! i = Some pi
             ∧ taint_ranges s !! ri = Some rri
             ∧ taint_ranges s !! pi = None
             ∧ taint_ranges s' !! pi = Some new
             ∧ TaintRange.start new = wrap_long (TaintRange.start rri + o)
             ∧ (is_long (TaintRange.start rri + o)
                → TaintRange.start new = TaintRange.start rri + o)
             ∧ TaintRange.length new = TaintRange.length rri
             ∧ TaintRange.source new = TaintRange.source rri).
Proof.
  intros Hr Hrr Hrs. split.
  - eexists _, _. split; [by apply api_shift_taint_range_ok|].
    assert (Hp : taint_ranges s !! fresh_addr (taint_ranges s) = None)
      by apply fresh_addr_None.
    assert (Hkeep : ∀ q x, taint_ranges s !! q = Some x →
              <[fresh_addr (taint_ranges s) :=
                  TaintRange.mk (wrap_long (TaintRange.start rr + o)) (TaintRange.length rr)
                                (TaintRange.source rr)]> (taint_ranges s) !! q = Some x).
    { intros q x Hq. rewrite lookup_insert_ne; [done|]. intros <-. by rewrite Hp in Hq. }
    split; [done|]. split; [|split; [by apply Hkeep|exact Hkeep]].
    eexists. split; [apply lookup_insert_eq|]. simpl.
    split; [done|]. split; [apply wrap_long_id|done].
  - destruct (shift_loop_ok o rs s [] Hrs)
      as (ps & s' & Hrun & Hpres & _ & _ & _ & Hlen & Helem).
    exists ps, s'. split; [exact Hrun|]. split; [done|]. split; [done|].
    intros i ri Hi. destruct (Helem i ri Hi) as (pi & rri & H1 & H2 & H3 & H4).
    refine (ex_intro _ pi (ex_intro _ rri (ex_intro _ _
              (conj H1 (conj H3 (conj H2 (conj H4 _))))))).
    simpl. split; [done|]. split; [apply wrap_long_id|done].
Qed.

(** C7 as stated fails: shifting a range that starts at the largest
    [RANGE_START] by one gives a range that starts at the smallest,
    not at the sum. *)
Lemma shift_wraps_at_long_max :
  taint_ranges overflow_state !! 70
  = Some (TaintRange.mk (2 ^ 63 - 1) 1 (mkSource "q" 1 "a"))
  ∧ ∃ p s' new,
      api_shift_taint_range 70 1 overflow_state = Ok p s'
      ∧ taint_ranges s' !! p = Some new
      ∧ TaintRange.start new = - 2 ^ 63
      ∧ TaintRange.start new ≠ (2 ^ 63 - 1) + 1.
Proof.
  split; [reflexivity|].
  eexists _, _, _. split; [vm_compute; reflexivity|].
  split; [reflexivity|]. split; [reflexivity|]. done.
Qed.

(** * Ranges of all operands *)

Lemma is_text_defined s v :
  value_ok s v → is_text v s = Ok (text_like s v) s.
Proof.
  intros [-> | [o Ho]]; [done|].
  unfold text_like, is_text.
  destruct (Z.eqb_spec v nullptr) as [?|Hv]; [done|].
  by rewrite (bind_ok _ _ _ _ _ (load_ok py_objects v s o Hv Ho)).
Qed.

Lemma get_ranges_defined s v :
  value_ok s v → context_map_ok s → entries_live s →
  get_ranges v (tainting_map s) s = Ok (ranges_of s v) s.
Proof.
  intros Hv Hctx Hlive.
  cut (∃ rs, get_ranges v (tainting_map s) s = Ok rs s).
  { intros [rs Hrs]. unfold ranges_of. by rewrite Hrs. }
  unfold get_ranges.
  rewrite (bind_ok _ _ _ _ _ (is_text_defined s v Hv)).
  destruct Hv as [->|[o Ho]]; [by eexists|].
  unfold text_like, is_text.
  destruct (Z.eqb_spec v nullptr) as [?|Hv]; [by eexists|].
  rewrite (bind_ok _ _ _ _ _ (load_ok py_objects v s o Hv Ho)). unfold ret at 1.
  destruct (ob_text o); [simpl|by eexists].
  rewrite (bind_ok _ _ _ _ _ (resolve_in_get_ranges (tainting_map s) s)).
  assert (Hres : resolve_map (tainting_map s) s = tainting_map s).
  { unfold resolve_map. by destruct (Z.eqb_spec (tainting_map s) nullptr). }
  rewrite Hres.
  destruct (Z.eqb_spec (tainting_map s) nullptr) as [?|Hmp]; [by eexists|].
  destruct Hctx as [?|[m Hm]]; [done|].
  rewrite (bind_ok _ _ _ _ _ (map_at_ok _ s m Hmp Hm)).
  destruct (is_empty_map m); [by eexists|].
  destruct (m !! get_unique_id v) as [[cached tobj]|] eqn:Hentry; [|by eexists].
  rewrite (bind_ok _ _ _ _ _ (PyASCII_hash_ok s v o Hv Ho)).
  destruct (ob_hash o =? cached); [simpl|by eexists].
  destruct (Hlive _ m Hm _ _ Hentry) as [Ht [to Hto]]. simpl in Ht, Hto.
  rewrite (get_ranges_of_object_ok s tobj to Ht Hto). by eexists.
Qed.

Lemma all_ranges_loop_ok s params : ∀ acc,
  Forall (value_ok s) params → context_map_ok s → entries_live s →
  all_ranges_loop params (tainting_map s) acc s
  = Ok (acc ++ concat (map (λ p, if text_like s p then ranges_of s p else []) params)) s.
Proof.
  induction params as [|p params IH]; intros acc Hall Hctx Hlive.
  - simpl. by rewrite app_nil_r.
  - apply Forall_cons in Hall as [Hp Hall]. simpl.
    rewrite (bind_ok _ _ _ _ _ (is_text_defined s p Hp)).
    destruct (text_like s p).
    + rewrite (bind_ok _ _ _ _ _ (get_ranges_defined s p Hp Hctx Hlive)).
      rewrite IH by done. by rewrite <- app_assoc.
    + by rewrite IH.
Qed.

(** C8 (result shape of [are_all_text_all_ranges]): in a state where
    the values can be inspected, a text candidate yields the ranges of
    the text operands, in operand order, followed by the candidate's
    ranges, paired with the candidate's ranges; operands that are not
    text add nothing; a candidate that is not text yields two empty
    sequences.  The state is not changed. *)
Theorem are_all_text_all_ranges_shape s candidate params :
  value_ok s candidate → Forall (value_ok s) params →
  context_map_ok s → entries_live s →
  are_all_text_all_ranges candidate params s
  = Ok (if text_like s candidate
        then (concat (map (λ p, if text_like s p then ranges_of s p else []) params)
                ++ ranges_of s candidate,
              ranges_of s candidate)
        else ([], [])) s.
Proof.
  intros Hc Hps Hctx Hlive. unfold are_all_text_all_ranges.
  rewrite (bind_ok _ _ _ _ _ (is_text_defined s candidate Hc)).
  destruct (text_like s candidate); [simpl|done].
  unfold Initializer.get_tainting_map at 1. unfold bind at 1.
  rewrite (bind_ok _ _ _ _ _ (get_ranges_defined s candidate Hc Hctx Hlive)).
  by rewrite (bind_ok _ _ _ _ _ (all_ranges_loop_ok s params [] Hps Hctx Hlive)).
Qed.

(** * Errors of [set_ranges] *)

Section NeverThrows.
Context {A B : Type}.

Lemma never_throws_bind (m : M A) (k : A → M B) :
  never_throws m → (∀ a, never_throws (k a)) → never_throws (bind m k).
Proof.
  intros Hm Hk s e s'. unfold bind.
  destruct (m s) as [a s1|e1 s1|] eqn:E; [apply Hk| |done].
  by destruct (Hm s e1 s1).
Qed.

Lemma never_throws_ret (a : A) : never_throws (ret a).
Proof. done. Qed.

Lemma never_throws_load (store : State → gmap Z A) p : never_throws (load store p).
Proof.
  intros s e s'. unfold load. destruct (p =? nullptr); [done|].
  by destruct (store s !! p).
Qed.

Lemma never_throws_update (a : A) (f : State → State) : never_throws (λ s, Ok a (f s)).
Proof. done. Qed.

End NeverThrows.

Lemma never_throws_incref p : never_throws (TaintedObject.incref p).
Proof.
  apply never_throws_bind; [apply never_throws_load|].
  intros o. apply never_throws_update.
Qed.

Lemma never_throws_decref p : never_throws (TaintedObject.decref p).
Proof.
  apply never_throws_bind; [apply never_throws_load|].
  intros o. apply never_throws_update.
Qed.

Lemma never_throws_PyASCII_hash p : never_throws (PyASCII_hash p).
Proof.
  apply never_throws_bind; [apply never_throws_load|].
  intros o. apply never_throws_ret.
Qed.

(** What [set_ranges] does with the map it has resolved. *)
Lemma set_ranges_tail_never_throws str ranges tx_map :
  never_throws
    (tx_id <- Initializer.context_id ;;
     if tx_id =? 0 then ret tt
     else
       let obj_id := get_unique_id str in
       m <- map_at tx_map ;;
       let it := m !! obj_id in
       new_tainted_object <- Initializer.allocate_ranges_into_taint_object ranges ;;
       hash <- PyASCII_hash str ;;
       TaintedObject.incref new_tainted_object ;;
       match it with
       | Some (_, old) =>
           TaintedObject.decref old ;;
           store_map tx_map (<[obj_id := (hash, new_tainted_object)]> m)
       | None =>
           store_map tx_map (umap_insert obj_id (hash, new_tainted_object) m)
       end).
Proof.
  apply never_throws_bind; [done|]. intros tx_id.
  destruct (tx_id =? 0); [done|]. simpl.
  apply never_throws_bind; [apply never_throws_load|]. intros m.
  apply never_throws_bind; [done|]. intros new.
  apply never_throws_bind; [apply never_throws_PyASCII_hash|]. intros hash.
  apply never_throws_bind; [apply never_throws_incref|]. intros _.
  destruct (m !! get_unique_id str) as [[h old]|]; [|done].
  apply never_throws_bind; [apply never_throws_decref|]. done.
Qed.

(** C6 (error taxonomy of [set_ranges]): the call throws, and then
    throws the initialization error with the state untouched, exactly
    when the value is text, the ranges are not empty, no map is passed
    and the context has none; for a value that is not text or an
    empty sequence of ranges, and for a resolvable map in context 0,
    it returns with the state untouched. *)
Theorem set_ranges_error_taxonomy s v rs tx :
  value_ok s v →
  (text_like s v = true ∧ rs ≠ [] ∧ tx = nullptr ∧ tainting_map s = nullptr
   → set_ranges v rs tx s = Throw not_initialized s)
  ∧ ((∃ e s', set_ranges v rs tx s = Throw e s')
     → text_like s v = true ∧ rs ≠ [] ∧ tx = nullptr ∧ tainting_map s = nullptr)
  ∧ (text_like s v = false ∨ rs = [] → set_ranges v rs tx s = Ok tt s)
  ∧ (text_like s v = true → rs ≠ [] → resolve_map tx s ≠ nullptr → ctx_id s = 0
     → set_ranges v rs tx s = Ok tt s).
Proof.
  intros Hv. pose proof (is_text_defined s v Hv) as Htext.
  unfold set_ranges. rewrite (bind_ok _ _ _ _ _ Htext).
  split; [|split; [|split]].
  - intros (-> & Hrs & -> & Hmap). simpl.
    rewrite bool_decide_eq_false_2 by done.
    unfold map_or_throw, Initializer.get_tainting_map, bind. simpl.
    by rewrite Hmap.
  - intros (e & s' & Hthrow).
    destruct (text_like s v); [simpl in Hthrow|done].
    destruct (decide (rs = [])) as [->|Hrs]; [done|].
    rewrite bool_decide_eq_false_2 in Hthrow by done.
    unfold map_or_throw in Hthrow.
    destruct (Z.eqb_spec tx nullptr) as [->|Htx].
    + unfold Initializer.get_tainting_map in Hthrow. unfold bind at 1 2 in Hthrow.
      destruct (Z.eqb_spec (tainting_map s) nullptr) as [Hmap|Hmap]; [done|].
      by destruct (set_ranges_tail_never_throws v rs (tainting_map s) s e s').
    + unfold bind at 1 in Hthrow. unfold ret at 1 in Hthrow.
      by destruct (set_ranges_tail_never_throws v rs tx s e s').
  - intros [-> | ->]; [done|]. simpl. by rewrite orb_true_r.
  - intros -> Hrs Hmp Hctx. simpl.
    rewrite bool_decide_eq_false_2 by done.
    rewrite (bind_ok _ _ _ _ _ (map_or_throw_ok tx s Hmp)).
    unfold Initializer.context_id, bind. by rewrite Hctx.
Qed.

(** * The statements at sample states *)

Lemma entries_live_demo : entries_live demo_state.
Proof. apply (bool_decide_unpack _). by vm_compute. Qed.

Lemma counts_ok_demo : counts_ok demo_state.
Proof. apply (bool_decide_unpack _). by vm_compute. Qed.

Lemma set_get_ranges_roundtrip_witness :
  ∃ s', set_ranges 100 [50] 0 demo_state = Ok tt s'
        ∧ get_ranges 100 0 s' = Ok [50] s'.
Proof.
  apply (set_get_ranges_roundtrip demo_state 100 (mkPyObject 1 true 7 7) [50] 0
           {[ 200 := (9, 1) ]}); try done.
Defined.


Lemma get_ranges_stale_read_only_witness :
  get_ranges 100 0 stale_state = Ok [] stale_state.
Proof.
  apply (get_ranges_stale_read_only stale_state 100 (mkPyObject 1 true 8 8) 0
           {[ 100 := (7, 1) ]} 7 1); done.
Defined.

Lemma stale_get_tainted_object_decrements_witness :
  ∃ s', get_tainted_object 100 0 stale_state = Ok nullptr s'
        ∧ taint_maps s' = taint_maps stale_state
        ∧ py_objects s' = py_objects stale_state
        ∧ tainted_objects s' !! 1 = None
        ∧ ∀ p, p ≠ 1 → tainted_objects s' !! p = tainted_objects stale_state !! p.
Proof.
  apply (stale_get_tainted_object_decrements stale_state 100 (mkPyObject 1 true 8 8) 0
           {[ 100 := (7, 1) ]} 7 1 (TaintedObjectData.mk [50] 1)); done.
Defined.

Lemma set_tainted_object_same_object_witness :
  set_tainted_object 200 1 0 demo_state = Ok tt demo_state.
Proof.
  apply (set_tainted_object_same_object demo_state 200 (mkPyObject 1 true 9 9) 0
           {[ 200 := (9, 1) ]} 9 1); done.
Defined.

Lemma set_ranges_error_taxonomy_witness :
  set_ranges 100 [50] 0 no_context_state = Throw not_initialized no_context_state
  ∧ set_ranges 100 [] 0 no_context_state = Ok tt no_context_state
  ∧ set_ranges 100 [50] 10 no_context_state = Ok tt no_context_state.
Proof.
  assert (Hv : value_ok no_context_state 100) by (right; by eexists).
  split; [|split].
  - apply (proj1 (set_ranges_error_taxonomy no_context_state 100 [50] 0 Hv)). done.
  - apply (proj1 (proj2 (proj2
             (set_ranges_error_taxonomy no_context_state 100 [] 0 Hv)))). by right.
  - apply (proj2 (proj2 (proj2
             (set_ranges_error_taxonomy no_context_state 100 [50] 10 Hv)))); done.
Defined.

Lemma shift_correct_witness :
  (∃ p s',
     api_shift_taint_range 51 3 operands_state = Ok p s'
     ∧ taint_ranges operands_state !! p = None
     ∧ (∃ new, taint_ranges s' !! p = Some new
               ∧ TaintRange.start new = wrap_long (2 + 3)
               ∧ (is_long (2 + 3) → TaintRange.start new = 2 + 3)
               ∧ TaintRange.length new = 3
               ∧ TaintRange.source new = mkSource "h" 2 "xyz")
     ∧ taint_ranges s' !! 51 = Some (TaintRange.mk 2 3 (mkSource "h" 2 "xyz"))
     ∧ ∀ q x, taint_ranges operands_state !! q = Some x → taint_ranges s' !! q = Some x)
  ∧ (∃ ps s',
       api_shift_taint_ranges [50; 51] 3 operands_state = Ok ps s'
       ∧ List.length ps = 2%nat
       ∧ (∀ q x, taint_ranges operands_state !! q = Some x
                 → taint_ranges s' !! q = Some x)
       ∧ ∀ (i : nat) ri, [50; 51] !! i = Some ri →
           ∃ pi rri new,
             ps !! i = Some pi
             ∧ taint_ranges operands_state !! ri = Some rri
             ∧ taint_ranges operands_state !! pi = None
             ∧ taint_ranges s' !! pi = Some new
             ∧ TaintRange.start new = wrap_long (TaintRange.start rri + 3)
             ∧ (is_long (TaintRange.start rri + 3)
                → TaintRange.start new = TaintRange.start rri + 3)
             ∧ TaintRange.length new = TaintRange.length rri
             ∧ TaintRange.source new = TaintRange.source rri).
Proof.
  apply (shift_correct operands_state 3 51 (TaintRange.mk 2 3 (mkSource "h" 2 "xyz"))
           [50; 51]); [done|done|].
  do 2 (apply List.Forall_cons; [split; [done|by eexists]|]). apply List.Forall_nil.
Defined.

Lemma are_all_text_all_ranges_shape_witness :
  are_all_text_all_ranges 400 [100; 300; 200] operands_state
  = Ok ([50; 51; 52], [52]) operands_state.
Proof.
  rewrite (are_all_text_all_ranges_shape operands_state 400 [100; 300; 200]).
  - reflexivity.
  - right. by eexists.
  - do 3 (apply List.Forall_cons; [right; by eexists|]). apply List.Forall_nil.
  - right. by eexists.
  - apply (bool_decide_unpack _). by vm_compute.
Defined.

Lemma TaintRange_eq_ne_consistent_witness :
  TaintRange___eq__ 50 nullptr operands_state = Ok false operands_state
  ∧ TaintRange___ne__ 50 nullptr operands_state = Ok true operands_state
  ∧ TaintRange___eq__ 50 52 operands_state = Ok true operands_state
  ∧ TaintRange___ne__ 50 52 operands_state = Ok false operands_state
  ∧ TaintRange___eq__ 50 51 operands_state = Ok false operands_state
  ∧ TaintRange___ne__ 50 51 operands_state = Ok true operands_state.
Proof.
  destruct (TaintRange_eq_ne_consistent operands_state 50
              (TaintRange.mk 0 4 (mkSource "q" 1 "abcd")))
    as (Heq0 & Hne0 & Hother); [done|done|].
  destruct (Hother 52 (TaintRange.mk 0 4 (mkSource "c" 3 "wxyz"))) as [H1 H2];
    [done|done|].
  destruct (Hother 51 (TaintRange.mk 2 3 (mkSource "h" 2 "xyz"))) as [H3 H4];
    [done|done|].
  repeat split; assumption.
Defined.

(** * Further properties of the lookups *)

Section ReadOnly.
Context {A B : Type}.

Lemma read_only_ret (a : A) : read_only (ret a).
Proof. intros s. right. by exists a. Qed.

Lemma read_only_bind (m : M A) (k : A → M B) :
  read_only m → (∀ a, read_only (k a)) → read_only (bind m k).
Proof.
  intros Hm Hk s. unfold bind.
  destruct (Hm s) as [->|[a ->]]; [by left|apply Hk].
Qed.

Lemma read_only_load (store : State → gmap Z A) p : read_only (load store p).
Proof.
  intros s. unfold load. destruct (p =? nullptr); [by left|].
  destruct (store s !! p) as [a|]; [right; by exists a|by left].
Qed.

End ReadOnly.

Lemma read_only_is_text p : read_only (is_text p).
Proof.
  unfold is_text. destruct (p =? nullptr); [apply read_only_ret|].
  apply read_only_bind; [apply read_only_load|]. intros o. apply read_only_ret.
Qed.

Lemma read_only_get_ranges v tx : read_only (get_ranges v tx).
Proof.
  unfold get_ranges.
  apply read_only_bind; [apply read_only_is_text|]. intros text.
  destruct (negb text); [apply read_only_ret|].
  apply read_only_bind.
  { destruct (tx =? nullptr); [|apply read_only_ret]. intros s. right. by eexists. }
  intros mp. destruct (mp =? nullptr); [apply read_only_ret|].
  apply read_only_bind; [apply read_only_load|]. intros m.
  destruct (is_empty_map m); [apply read_only_ret|].
  destruct (m !! get_unique_id v) as [[cached tobj]|]; [|apply read_only_ret].
  apply read_only_bind.
  { apply read_only_bind; [apply read_only_load|]. intros o. apply read_only_ret. }
  intros hash. destruct (negb (hash =? cached)); [apply read_only_ret|].
  apply read_only_bind; [apply read_only_load|]. intros o. apply read_only_ret.
Qed.

Lemma read_only_all_ranges_loop params tx : ∀ acc,
  read_only (all_ranges_loop params tx acc).
Proof.
  induction params as [|p params IH]; intros acc; simpl; [apply read_only_ret|].
  apply read_only_bind; [apply read_only_is_text|]. intros text.
  destruct text; [|apply IH].
  apply read_only_bind; [apply read_only_get_ranges|]. intros ranges. apply IH.
Qed.

(** X1: [get_ranges] and [are_all_text_all_ranges] are pure lookups:
    whatever the arguments and the state, a call that has a result
    returns in the state it started from, and none throws. *)
Theorem range_lookups_read_only s v tx candidate params :
  (get_ranges v tx s = Undefined ∨ ∃ rs, get_ranges v tx s = Ok rs s)
  ∧ (are_all_text_all_ranges candidate params s = Undefined
     ∨ ∃ res, are_all_text_all_ranges candidate params s = Ok res s).
Proof.
  split; [apply read_only_get_ranges|].
  revert s. change (read_only (are_all_text_all_ranges candidate params)).
  unfold are_all_text_all_ranges.
  apply read_only_bind; [apply read_only_is_text|]. intros text.
  destruct (negb text); [apply read_only_ret|].
  apply read_only_bind; [intros s; right; by eexists|]. intros mp.
  apply read_only_bind; [apply read_only_get_ranges|]. intros cr.
  apply read_only_bind; [apply read_only_all_ranges_loop|]. intros ar.
  apply read_only_ret.
Qed.

(** [get_ranges] returns ranges only from a matching entry: a
    result that is not empty comes from a text value, a map that
    could be resolved, and an entry under the value's identity whose
    cached hash is the value's hash; it is the sequence held by the
    container of that entry. *)
Lemma get_ranges_hit_inv s v tx rs s' :
  get_ranges v tx s = Ok rs s' → rs ≠ [] →
  ∃ o m tobj to,
    v ≠ nullptr ∧ py_objects s !! v = Some o ∧ ob_text o = true
    ∧ resolve_map tx s ≠ nullptr ∧ taint_maps s !! resolve_map tx s = Some m
    ∧ m !! get_unique_id v = Some (ob_hash o, tobj)
    ∧ tobj ≠ nullptr ∧ tainted_objects s !! tobj = Some to
    ∧ rs = TaintedObjectData.ranges_ to ∧ s' = s.
Proof.
  unfold get_ranges, is_text, PyASCII_hash, TaintedObject.get_ranges, map_at.
  intros Hrun Hne.
  destruct (Z.eqb_spec v nullptr) as [?|Hv].
  { unfold bind, ret in Hrun. simpl in Hrun. congruence. }
  unfold bind at 1 2 in Hrun. unfold load at 1 in Hrun.
  destruct (Z.eqb_spec v nullptr) as [?|_]; [done|].
  destruct (py_objects s !! v) as [o|] eqn:Ho; [|done].
  unfold ret at 1 in Hrun.
  destruct (ob_text o) eqn:Htext; simpl in Hrun; [|unfold ret in Hrun; congruence].
  rewrite (bind_ok _ _ _ _ _ (resolve_in_get_ranges tx s)) in Hrun.
  destruct (Z.eqb_spec (resolve_map tx s) nullptr) as [?|Hmp];
    [unfold ret in Hrun; congruence|].
  unfold bind at 1 in Hrun. unfold load at 1 in Hrun.
  destruct (Z.eqb_spec (resolve_map tx s) nullptr) as [?|_]; [done|].
  destruct (taint_maps s !! resolve_map tx s) as [m|] eqn:Hm; [|done].
  destruct (is_empty_map m); [unfold ret in Hrun; congruence|].
  destruct (m !! get_unique_id v) as [[cached tobj]|] eqn:Hentry;
    [|unfold ret in Hrun; congruence].
  unfold bind at 1 2 in Hrun. unfold load at 1 in Hrun.
  destruct (Z.eqb_spec v nullptr) as [?|_]; [done|].
  rewrite Ho in Hrun. unfold ret at 1 in Hrun.
  destruct (Z.eqb_spec (ob_hash o) cached) as [<-|?];
    simpl in Hrun; [|unfold ret in Hrun; congruence].
  unfold bind, load in Hrun.
  destruct (Z.eqb_spec tobj nullptr) as [?|Ht]; [done|].
  destruct (tainted_objects s !! tobj) as [to|] eqn:Hto; [|done].
  unfold ret in Hrun. injection Hrun as <- <-.
  by exists o, m, tobj, to.
Qed.

(** The misses of [get_ranges]: for a value that can be inspected,
    the result is the empty sequence, in the unchanged state, when the
    value is null or not text, when no map can be resolved, and when
    the map (empty or not) has no entry under the value's identity. *)
Lemma get_ranges_miss s v tx :
  value_ok s v →
  text_like s v = false
  ∨ resolve_map tx s = nullptr
  ∨ (∃ m, taint_maps s !! resolve_map tx s = Some m ∧ m !! get_unique_id v = None) →
  get_ranges v tx s = Ok [] s.
Proof.
  intros Hv Hcase. unfold get_ranges.
  rewrite (bind_ok _ _ _ _ _ (is_text_defined s v Hv)).
  destruct (text_like s v); [simpl|done].
  rewrite (bind_ok _ _ _ _ _ (resolve_in_get_ranges tx s)).
  destruct (Z.eqb_spec (resolve_map tx s) nullptr) as [?|Hmp]; [done|].
  destruct Hcase as [?|[?|(m & Hm & Hentry)]]; [done|done|].
  rewrite (bind_ok _ _ _ _ _ (map_at_ok _ s m Hmp Hm)).
  destruct (is_empty_map m); [done|]. by rewrite Hentry.
Qed.

(** * Invariants of [set_ranges] *)

Lemma set_ranges_inv s v rs tx s' :
  entries_live s → set_ranges v rs tx s = Ok tt s' →
  s' = s
  ∨ ∃ o m,
      v ≠ nullptr ∧ py_objects s !! v = Some o ∧ ob_text o = true ∧ rs ≠ []
      ∧ ctx_id s ≠ 0 ∧ resolve_map tx s ≠ nullptr
      ∧ taint_maps s !! resolve_map tx s = Some m
      ∧ s' = after_set_ranges v (ob_hash o) rs (resolve_map tx s) m s.
Proof.
  intros Hlive Hrun.
  destruct (decide (v = nullptr)) as [->|Hv].
  { vm_compute in Hrun. left. congruence. }
  destruct (py_objects s !! v) as [o|] eqn:Ho; cycle 1.
  { unfold set_ranges, is_text in Hrun.
    destruct (Z.eqb_spec v nullptr) as [?|_]; [done|].
    unfold bind, load in Hrun.
    destruct (Z.eqb_spec v nullptr) as [?|_]; [done|]. by rewrite Ho in Hrun. }
  pose proof Hrun as Hrun0. unfold set_ranges in Hrun.
  rewrite (bind_ok _ _ _ _ _ (is_text_ok s v o Hv Ho)) in Hrun.
  destruct (ob_text o) eqn:Htext; [|left; unfold ret in Hrun; simpl in Hrun; congruence].
  destruct (decide (rs = [])) as [->|Hrs]; [left; unfold ret in Hrun; simpl in Hrun; congruence|].
  simpl in Hrun. rewrite bool_decide_eq_false_2 in Hrun by done.
  destruct (decide (resolve_map tx s = nullptr)) as [Hmp|Hmp].
  { unfold map_or_throw, resolve_map, Initializer.get_tainting_map in Hrun.
    unfold resolve_map in Hmp.
    destruct (Z.eqb_spec tx nullptr) as [?|?]; [|done].
    unfold bind at 1 2 in Hrun.
    destruct (Z.eqb_spec (tainting_map s) nullptr) as [?|?]; done. }
  rewrite (bind_ok _ _ _ _ _ (map_or_throw_ok tx s Hmp)) in Hrun.
  unfold Initializer.context_id at 1 in Hrun. unfold bind at 1 in Hrun.
  destruct (Z.eqb_spec (ctx_id s) 0) as [?|Hctx];
    [left; unfold ret in Hrun; congruence|].
  destruct (taint_maps s !! resolve_map tx s) as [m|] eqn:Hm; cycle 1.
  { unfold bind at 1 in Hrun. unfold map_at, load in Hrun.
    destruct (Z.eqb_spec (resolve_map tx s) nullptr) as [?|_]; [done|].
    by rewrite Hm in Hrun. }
  right. exists o, m.
  rewrite (set_ranges_run s v o rs tx m) in Hrun0; try done.
  - injection Hrun0 as <-. done.
  - intros h old Hk. apply (Hlive _ m Hm v (h, old) Hk).
Qed.

Lemma map_refs_zero t s :
  (∀ mp m k e, taint_maps s !! mp = Some m → m !! k = Some e → e.2 ≠ t) →
  map_refs t s = 0%nat.
Proof.
  intros Hall. unfold map_refs.
  apply (fold_sum_zero _ (λ _ m, refs_in_map t m)); [done|].
  intros mp m Hm. apply refs_in_map_zero. intros k e Hk.
  by apply (Hall mp m k e).
Qed.

Lemma map_refs_fresh s :
  entries_live s → map_refs (fresh_addr (tainted_objects s)) s = 0%nat.
Proof.
  intros Hlive. apply map_refs_zero. intros mp m k e Hm Hk Heq.
  destruct (Hlive mp m Hm k e Hk) as [_ [x Hx]].
  by rewrite Heq, fresh_addr_None in Hx.
Qed.

(** The reference numbers before and after [set_ranges], split into the
    share of the entry of [v] and the share of all other entries. *)
Lemma map_refs_before t s mp m v :
  taint_maps s !! mp = Some m →
  map_refs t s
  = (match m !! v with Some e => refers_to t v e | None => 0 end
     + refs_in_map t (delete v m) + other_maps_refs t mp (taint_maps s))%nat.
Proof.
  intros Hm. rewrite (map_refs_lookup t s mp m Hm).
  destruct (m !! v) as [e|] eqn:Hk.
  - by rewrite (refs_in_map_lookup t v e m Hk).
  - by rewrite delete_id.
Qed.

Lemma map_refs_after t v hash rs mp m s :
  map_refs t (after_set_ranges v hash rs mp m s)
  = (refers_to t v (hash, fresh_addr (tainted_objects s))
     + refs_in_map t (delete v m) + other_maps_refs t mp (taint_maps s))%nat.
Proof.
  rewrite (map_refs_lookup t _ mp (<[v := (hash, fresh_addr (tainted_objects s))]> m))
    by (rewrite after_set_ranges_maps; apply lookup_insert_eq).
  rewrite refs_in_map_insert, after_set_ranges_maps.
  unfold other_maps_refs. by rewrite delete_insert_eq.
Qed.

Lemma refers_to_ne t k h p : p ≠ t → refers_to t k (h, p) = 0%nat.
Proof. intros Hne. unfold refers_to. simpl. by destruct (Z.eqb_spec p t). Qed.

Lemma after_set_ranges_counts_ok v hash rs mp m s :
  taint_maps s !! mp = Some m → entries_live s → counts_ok s →
  counts_ok (after_set_ranges v hash rs mp m s).
Proof.
  intros Hm Hlive Hcnt t o' Ht. simpl.
  set (b := fresh_addr (tainted_objects s)) in *.
  rewrite map_refs_after. fold b.
  pose proof (map_refs_fresh s Hlive) as Hb0. fold b in Hb0.
  pose proof (map_refs_before t s mp m v Hm) as Hbefore.
  pose proof (map_refs_before b s mp m v Hm) as Hbeforeb. rewrite Hb0 in Hbeforeb.
  assert (Hbnone : tainted_objects s !! b = None) by apply fresh_addr_None.
  destruct (m !! v) as [[h0 old]|] eqn:Hk.
  - destruct (Hlive mp m Hm v (h0, old) Hk) as [_ [oo Hoo]]. simpl in Hoo.
    assert (Hob : old ≠ b) by (intros ->; congruence).
    rewrite (after_set_ranges_objects v hash rs mp m s h0 old Hk) in Ht. fold b in Ht.
    destruct (decide (t = b)) as [->|Htb].
    + rewrite release_lookup_ne, lookup_insert_eq in Ht by done.
      injection Ht as <-. simpl. rewrite refers_to_eq. lia.
    + rewrite (refers_to_ne t v hash b) by done.
      destruct (decide (t = old)) as [->|Hto].
      * unfold release in Ht. rewrite lookup_insert_ne, Hoo in Ht by done.
        pose proof (Hcnt old oo Hoo) as Hc. simpl in Hc.
        rewrite refers_to_eq in Hbefore.
        destruct (Z.eqb_spec (TaintedObjectData.rc_ oo - 1) 0) as [?|?].
        -- by rewrite lookup_delete_eq in Ht.
        -- rewrite lookup_insert_eq in Ht. injection Ht as <-. simpl. lia.
      * rewrite release_lookup_ne, lookup_insert_ne in Ht by done.
        pose proof (Hcnt t o' Ht) as Hc. simpl in Hc.
        rewrite (refers_to_ne t v h0 old) in Hbefore by done. lia.
  - unfold after_set_ranges in Ht. simpl in Ht. rewrite Hk in Ht. fold b in Ht.
    destruct (decide (t = b)) as [->|Htb].
    + rewrite lookup_insert_eq in Ht. injection Ht as <-. simpl.
      rewrite refers_to_eq. lia.
    + rewrite lookup_insert_ne in Ht by done.
      pose proof (Hcnt t o' Ht) as Hc. simpl in Hc.
      rewrite (refers_to_ne t v hash b) by done. lia.
Qed.

(** The containers that the entries other than the one of [v] refer to
    survive [set_ranges], with their ranges. *)
Lemma after_set_ranges_other_entry v hash rs mp m s mp' m' k h' t :
  taint_maps s !! mp = Some m → entries_live s → counts_ok s →
  taint_maps s !! mp' = Some m' → m' !! k = Some (h', t) →
  mp' ≠ mp ∨ k ≠ v →
  ∃ ot ot', tainted_objects s !! t = Some ot
            ∧ tainted_objects (after_set_ranges v hash rs mp m s) !! t = Some ot'
            ∧ TaintedObjectData.ranges_ ot' = TaintedObjectData.ranges_ ot.
Proof.
  intros Hm Hlive Hcnt Hm' Hk Hne.
  destruct (Hlive mp' m' Hm' k (h', t) Hk) as [_ [ot Hot]]. simpl in Hot.
  assert (Htb : t ≠ fresh_addr (tainted_objects s)).
  { intros ->. by rewrite fresh_addr_None in Hot. }
  exists ot.
  destruct (m !! v) as [[h0 old]|] eqn:Hkv.
  - rewrite (after_set_ranges_objects v hash rs mp m s h0 old Hkv).
    destruct (decide (t = old)) as [->|Hto].
    + pose proof (map_refs_two old s mp' m' k h' mp m v h0 Hm' Hk Hm Hkv Hne) as H2.
      pose proof (Hcnt old ot Hot) as Hc. simpl in Hc.
      unfold release. rewrite lookup_insert_ne, Hot by done.
      destruct (Z.eqb_spec (TaintedObjectData.rc_ ot - 1) 0) as [?|?]; [lia|].
      eexists. by rewrite lookup_insert_eq.
    + exists ot. by rewrite release_lookup_ne, lookup_insert_ne.
  - exists ot. unfold after_set_ranges. simpl. rewrite Hkv.
    by rewrite lookup_insert_ne.
Qed.

Lemma after_set_ranges_entries_live v hash rs mp m s :
  taint_maps s !! mp = Some m → entries_live s → counts_ok s →
  entries_live (after_set_ranges v hash rs mp m s).
Proof.
  intros Hm Hlive Hcnt mp' m' Hm' k [h' t] Hk. simpl.
  rewrite after_set_ranges_maps in Hm'.
  assert (Hnew : tainted_objects (after_set_ranges v hash rs mp m s)
                   !! fresh_addr (tainted_objects s)
                 = Some (TaintedObjectData.mk rs 1)).
  { apply after_set_ranges_new_object. intros h old Hkv.
    by destruct (Hlive mp m Hm v (h, old) Hkv). }
  assert (Hother : ∀ mp0 m0 k0, taint_maps s !! mp0 = Some m0 → m0 !! k0 = Some (h', t) →
            mp0 ≠ mp ∨ k0 ≠ v →
            t ≠ nullptr ∧ is_Some (tainted_objects (after_set_ranges v hash rs mp m s) !! t)).
  { intros mp0 m0 k0 Hm0 Hk0 Hne. split.
    - by destruct (Hlive mp0 m0 Hm0 k0 (h', t) Hk0).
    - destruct (after_set_ranges_other_entry v hash rs mp m s mp0 m0 k0 h' t
                  Hm Hlive Hcnt Hm0 Hk0 Hne) as (ot & ot' & _ & H' & _).
      by eexists. }
  destruct (decide (mp' = mp)) as [->|Hmp].
  - rewrite lookup_insert_eq in Hm'. injection Hm' as <-.
    destruct (decide (k = v)) as [->|Hkv].
    + rewrite lookup_insert_eq in Hk. injection Hk as <- <-.
      split; [apply fresh_addr_nonnull|by eexists].
    + rewrite lookup_insert_ne in Hk by done.
      apply (Hother mp m k Hm Hk). by right.
  - rewrite lookup_insert_ne in Hm' by done.
    apply (Hother mp' m' k Hm' Hk). by left.
Qed.

(** X4: [set_ranges] keeps the table consistent: if every entry of
    every map refers to a live container and every container's count
    is the number of entries that refer to it, the same holds in the
    state a returning call leaves. *)
Theorem set_ranges_preserves_invariants s v rs tx s' :
  entries_live s → counts_ok s →
  set_ranges v rs tx s = Ok tt s' →
  entries_live s' ∧ counts_ok s'.
Proof.
  intros Hlive Hcnt Hrun.
  destruct (set_ranges_inv s v rs tx s' Hlive Hrun)
    as [->|(o & m & _ & _ & _ & _ & _ & _ & Hm & ->)]; [done|].
  split.
  - by apply after_set_ranges_entries_live.
  - by apply after_set_ranges_counts_ok.
Qed.

(** Every way [get_ranges] can return: a hit on a matching entry, a
    stale entry, or one of the misses. *)
Lemma get_ranges_cases s w tx r s1 :
  get_ranges w tx s = Ok r s1 →
  (∃ o m tobj to,
      w ≠ nullptr ∧ py_objects s !! w = Some o ∧ ob_text o = true
      ∧ resolve_map tx s ≠ nullptr ∧ taint_maps s !! resolve_map tx s = Some m
      ∧ m !! get_unique_id w = Some (ob_hash o, tobj)
      ∧ tobj ≠ nullptr ∧ tainted_objects s !! tobj = Some to
      ∧ r = TaintedObjectData.ranges_ to)
  ∨ (r = [] ∧
     ∃ o m cached tobj,
       w ≠ nullptr ∧ py_objects s !! w = Some o
       ∧ resolve_map tx s ≠ nullptr ∧ taint_maps s !! resolve_map tx s = Some m
       ∧ m !! get_unique_id w = Some (cached, tobj) ∧ ob_hash o ≠ cached)
  ∨ (r = [] ∧ value_ok s w ∧
     (text_like s w = false
      ∨ resolve_map tx s = nullptr
      ∨ ∃ m, taint_maps s !! resolve_map tx s = Some m ∧ m !! get_unique_id w = None)).
Proof.
  intros Hrun.
  assert (Hv : value_ok s w).
  { destruct (decide (w = nullptr)) as [?|Hw]; [by left|]. right.
    destruct (py_objects s !! w) eqn:Ho; [done|].
    unfold get_ranges, is_text in Hrun.
    destruct (Z.eqb_spec w nullptr) as [?|_]; [done|].
    unfold bind, load in Hrun.
    destruct (Z.eqb_spec w nullptr) as [?|_]; [done|]. by rewrite Ho in Hrun. }
  destruct (text_like s w) eqn:Htext; cycle 1.
  { rewrite (get_ranges_miss s w tx Hv) in Hrun by (left; done).
    injection Hrun as <- _. right. right. split; [done|]. split; [done|]. by left. }
  destruct (decide (resolve_map tx s = nullptr)) as [Hmp|Hmp].
  { rewrite (get_ranges_miss s w tx Hv) in Hrun by (right; left; done).
    injection Hrun as <- _. right. right. split; [done|]. split; [done|].
    right. by left. }
  destruct Hv as [->|[o Ho]]; [done|].
  assert (Hw : w ≠ nullptr).
  { intros ->. done. }
  assert (Hto : ob_text o = true).
  { unfold text_like in Htext. by rewrite (is_text_ok s w o Hw Ho) in Htext. }
  destruct (taint_maps s !! resolve_map tx s) as [m|] eqn:Hm; cycle 1.
  { unfold get_ranges in Hrun.
    rewrite (bind_ok _ _ _ _ _ (is_text_ok s w o Hw Ho)), Hto in Hrun. simpl in Hrun.
    rewrite (bind_ok _ _ _ _ _ (resolve_in_get_ranges tx s)) in Hrun.
    destruct (Z.eqb_spec (resolve_map tx s) nullptr) as [?|_]; [done|].
    unfold bind, map_at, load in Hrun.
    destruct (Z.eqb_spec (resolve_map tx s) nullptr) as [?|_]; [done|].
    by rewrite Hm in Hrun. }
  destruct (m !! get_unique_id w) as [[cached tobj]|] eqn:Hentry; cycle 1.
  { rewrite (get_ranges_miss s w tx) in Hrun.
    - injection Hrun as <- _. right. right. split; [done|].
      split; [right; by eexists|]. right. right. by exists m.
    - right. by eexists.
    - right. right. by exists m. }
  destruct (decide (ob_hash o = cached)) as [<-|Hhash]; cycle 1.
  { rewrite (get_ranges_stale s w o tx m cached tobj) in Hrun by done.
    injection Hrun as <- _. right. left. split; [done|].
    by exists o, m, cached, tobj. }
  left.
  destruct (decide (r = [])) as [->|Hr].
  - unfold get_ranges in Hrun.
    rewrite (bind_ok _ _ _ _ _ (is_text_ok s w o Hw Ho)), Hto in Hrun. simpl in Hrun.
    rewrite (bind_ok _ _ _ _ _ (resolve_in_get_ranges tx s)) in Hrun.
    destruct (Z.eqb_spec (resolve_map tx s) nullptr) as [?|_]; [done|].
    rewrite (bind_ok _ _ _ _ _ (map_at_ok _ s m Hmp Hm)) in Hrun.
    rewrite (is_empty_map_lookup _ _ _ Hentry), Hentry in Hrun.
    rewrite (bind_ok _ _ _ _ _ (PyASCII_hash_ok s w o Hw Ho)) in Hrun.
    rewrite Z.eqb_refl in Hrun. simpl in Hrun.
    unfold TaintedObject.get_ranges, bind, load in Hrun.
    destruct (Z.eqb_spec tobj nullptr) as [?|Ht]; [done|].
    destruct (tainted_objects s !! tobj) as [to|] eqn:Hobj; [|done].
    unfold ret in Hrun. injection Hrun as Hr _.
    by exists o, m, tobj, to.
  - destruct (get_ranges_hit_inv s w tx r s1 Hrun Hr)
      as (o' & m' & tobj' & to & _ & Ho' & _ & _ & Hm' & Hentry' & Ht & Hobj & -> & _).
    assert (o' = o) by congruence. subst o'.
    assert (m' = m) by congruence. subst m'.
    assert (tobj' = tobj) by congruence. subst tobj'.
    by exists o, m, tobj, to.
Qed.

Lemma text_like_py_objects s s' w :
  py_objects s' = py_objects s → text_like s' w = text_like s w.
Proof.
  intros Hpy. unfold text_like, is_text.
  destruct (w =? nullptr) eqn:E; [done|].
  unfold bind, load. rewrite E, Hpy. by destruct (py_objects s !! w).
Qed.

(** X5: [set_ranges] on one value does not disturb the others: from a
    consistent table, whatever [get_ranges] returned for a value with
    another identity, through any map, it returns after the call. *)
Theorem set_ranges_frame s v rs tx s' w tx' r :
  entries_live s → counts_ok s →
  set_ranges v rs tx s = Ok tt s' →
  get_unique_id w ≠ get_unique_id v →
  get_ranges w tx' s = Ok r s →
  get_ranges w tx' s' = Ok r s'.
Proof.
  intros Hlive Hcnt Hrun Hwv Hget. unfold get_unique_id in Hwv.
  destruct (set_ranges_inv s v rs tx s' Hlive Hrun)
    as [->|(o & m & _ & _ & _ & _ & _ & _ & Hm & ->)]; [done|].
  set (mp := resolve_map tx s) in *.
  set (s' := after_set_ranges v (ob_hash o) rs mp m s).
  assert (Hres : resolve_map tx' s' = resolve_map tx' s) by done.
  assert (Hentry : ∀ m0, taint_maps s !! resolve_map tx' s = Some m0 →
            ∃ m1, taint_maps s' !! resolve_map tx' s' = Some m1
                  ∧ m1 !! get_unique_id w = m0 !! get_unique_id w).
  { intros m0 Hm0. rewrite Hres. unfold s'. rewrite after_set_ranges_maps.
    destruct (decide (resolve_map tx' s = mp)) as [Heq|Hne].
    - rewrite Heq, lookup_insert_eq. eexists. split; [done|].
      rewrite Heq in Hm0. assert (m0 = m) by congruence. subst m0.
      unfold get_unique_id. by rewrite lookup_insert_ne.
    - rewrite lookup_insert_ne by done. by exists m0. }
  destruct (get_ranges_cases s w tx' r s Hget)
    as [(ow & mw & tobj & to & Hw & How & Htext & Hmp & Hmw & Hk & Ht & Hto & ->)
       |[(-> & ow & mw & cached & tobj & Hw & How & Hmp & Hmw & Hk & Hhash)
        |(-> & Hv & Hmiss)]].
  - destruct (Hentry mw Hmw) as (m1 & Hm1 & Hk1). rewrite Hk in Hk1.
    assert (Hne : resolve_map tx' s ≠ mp ∨ w ≠ v) by (by right).
    destruct (after_set_ranges_other_entry v (ob_hash o) rs mp m s
                (resolve_map tx' s) mw w (ob_hash ow) tobj Hm Hlive Hcnt Hmw Hk Hne)
      as (ot & ot' & Hot & Hot' & Hsame).
    assert (ot = to) by congruence. subst ot. rewrite <- Hsame.
    by apply (get_ranges_hit s' w ow tx' m1 tobj ot').
  - destruct (Hentry mw Hmw) as (m1 & Hm1 & Hk1). rewrite Hk in Hk1.
    by apply (get_ranges_stale s' w ow tx' m1 cached tobj).
  - apply get_ranges_miss; [exact Hv|].
    rewrite (text_like_py_objects s s' w) by done. rewrite Hres.
    destruct Hmiss as [?|[?|(m0 & Hm0 & Hk0)]]; [by left|right; by left|].
    right. right. destruct (Hentry m0 Hm0) as (m1 & Hm1 & Hk1).
    rewrite Hres in Hm1. exists m1. split; [done|]. by rewrite Hk1.
Qed.

(** * Further properties of the container accessors *)

(** A hit of [get_tainted_object] is a pure lookup: when the map
    has an entry under the value's identity whose cached hash is the
    value's hash, the call returns the stored pointer and changes
    nothing; it neither asks whether the value is text nor touches the
    container. *)
Lemma get_tainted_object_hit s v o tx m tobj :
  v ≠ nullptr → py_objects s !! v = Some o →
  resolve_map tx s ≠ nullptr → taint_maps s !! resolve_map tx s = Some m →
  m !! get_unique_id v = Some (ob_hash o, tobj) →
  get_tainted_object v tx s = Ok tobj s.
Proof.
  intros Hv Ho Hmp Hm Hentry. unfold get_tainted_object.
  destruct (Z.eqb_spec v nullptr) as [?|_]; [done|].
  rewrite (bind_ok _ _ _ _ _ (map_or_throw_ok tx s Hmp)).
  rewrite (bind_ok _ _ _ _ _ (map_at_ok _ s m Hmp Hm)).
  rewrite (is_empty_map_lookup _ _ _ Hentry), Hentry.
  rewrite (bind_ok _ _ _ _ _ (PyASCII_hash_ok s v o Hv Ho)).
  by rewrite Z.eqb_refl.
Qed.


Lemma get_tainted_object_tail_never_throws str tx_map :
  never_throws
    (m <- map_at tx_map ;;
     if is_empty_map m then ret nullptr
     else
       let it := m !! get_unique_id str in
       hash <- PyASCII_hash str ;;
       match it with
       | None => undefined
       | Some (cached_hash, tobj) =>
           if negb (hash =? cached_hash)
           then TaintedObject.decref tobj ;; ret nullptr
           else ret tobj
       end).
Proof.
  apply never_throws_bind; [apply never_throws_load|]. intros m.
  destruct (is_empty_map m); [done|]. simpl.
  apply never_throws_bind; [apply never_throws_PyASCII_hash|]. intros hash.
  destruct (m !! get_unique_id str) as [[cached tobj]|]; [|done].
  destruct (negb (hash =? cached)); [|done].
  apply never_throws_bind; [apply never_throws_decref|]. done.
Qed.

(** X8: errors and edges of [get_tainted_object]: the call throws
    exactly when the value is not null, no map is passed and the
    context has none, and what it throws then is the initialization
    error, in the unchanged state; a null value gives null; an empty
    map gives null before the value is looked at. *)
Theorem get_tainted_object_error_taxonomy s str tx :
  ((∃ e s', get_tainted_object str tx s = Throw e s')
   ↔ str ≠ nullptr ∧ tx = nullptr ∧ tainting_map s = nullptr)
  ∧ (str ≠ nullptr ∧ tx = nullptr ∧ tainting_map s = nullptr
     → get_tainted_object str tx s = Throw not_initialized s)
  ∧ (str = nullptr → get_tainted_object str tx s = Ok nullptr s)
  ∧ (str ≠ nullptr → resolve_map tx s ≠ nullptr
     → taint_maps s !! resolve_map tx s = Some ∅
     → get_tainted_object str tx s = Ok nullptr s).
Proof.
  assert (Hthrow : str ≠ nullptr ∧ tx = nullptr ∧ tainting_map s = nullptr
                   → get_tainted_object str tx s = Throw not_initialized s).
  { intros (Hstr & -> & Hmap). unfold get_tainted_object.
    destruct (Z.eqb_spec str nullptr) as [?|_]; [done|].
    unfold map_or_throw, Initializer.get_tainting_map, bind. simpl.
    by rewrite Hmap. }
  split; [split|split; [exact Hthrow|split]].
  - intros (e & s' & Hrun). unfold get_tainted_object in Hrun.
    destruct (Z.eqb_spec str nullptr) as [?|Hstr]; [done|].
    split; [done|]. unfold map_or_throw in Hrun.
    destruct (Z.eqb_spec tx nullptr) as [->|Htx].
    + split; [done|].
      unfold Initializer.get_tainting_map in Hrun. unfold bind at 1 2 in Hrun.
      destruct (Z.eqb_spec (tainting_map s) nullptr) as [?|?]; [done|].
      by destruct (get_tainted_object_tail_never_throws str (tainting_map s) s e s').
    + unfold bind at 1 in Hrun. unfold ret at 1 in Hrun.
      by destruct (get_tainted_object_tail_never_throws str tx s e s').
  - intros H. rewrite (Hthrow H). by eexists _, _.
  - intros ->. done.
  - intros Hstr Hmp Hm. unfold get_tainted_object.
    destruct (Z.eqb_spec str nullptr) as [?|_]; [done|].
    rewrite (bind_ok _ _ _ _ _ (map_or_throw_ok tx s Hmp)).
    by rewrite (bind_ok _ _ _ _ _ (map_at_ok _ s ∅ Hmp Hm)).
Qed.

Lemma never_throws_PyObject_Hash p : never_throws (PyObject_Hash p).
Proof.
  apply never_throws_bind; [apply never_throws_load|]. intros o.
  by destruct (ob_hash o =? -1).
Qed.

Lemma never_throws_Py_DECREF p : never_throws (Py_DECREF p).
Proof.
  apply never_throws_bind; [apply never_throws_load|]. intros o.
  apply never_throws_update.
Qed.

Lemma set_tainted_object_tail_never_throws str tainted_object tx_taint_map :
  never_throws
    (let obj_id := get_unique_id str in
     m <- map_at tx_taint_map ;;
     let it := m !! obj_id in
     hash <- PyASCII_hash str ;;
     hash <- (if hash =? -1
              then
                result <- PyObject_Hash str ;;
                (if negb (result =? 0) then Py_DECREF result else ret tt) ;;
                PyASCII_hash str
              else ret hash) ;;
     match it with
     | Some (cached_hash, old) =>
         if negb (old =? tainted_object)
         then
           TaintedObject.decref old ;;
           TaintedObject.incref tainted_object ;;
           store_map tx_taint_map (<[obj_id := (cached_hash, tainted_object)]> m)
         else ret tt
     | None =>
         TaintedObject.incref tainted_object ;;
         store_map tx_taint_map
           (umap_insert (to_uintptr hash) (hash, tainted_object) m)
     end).
Proof.
  simpl.
  apply never_throws_bind; [apply never_throws_load|]. intros m.
  apply never_throws_bind; [apply never_throws_PyASCII_hash|]. intros hash.
  apply never_throws_bind.
  { destruct (hash =? -1); [|done].
    apply never_throws_bind; [apply never_throws_PyObject_Hash|]. intros result.
    apply never_throws_bind; [|intros _; apply never_throws_PyASCII_hash].
    destruct (negb (result =? 0)); [apply never_throws_Py_DECREF|done]. }
  intros hash'.
  destruct (m !! get_unique_id str) as [[cached old]|].
  - destruct (negb (old =? tainted_object)); [|done].
    apply never_throws_bind; [apply never_throws_decref|]. intros _.
    apply never_throws_bind; [apply never_throws_incref|]. done.
  - apply never_throws_bind; [apply never_throws_incref|]. done.
Qed.

(** X9: errors and no-ops of [set_tainted_object]: for a value that
    can be inspected, the call throws exactly when the value is text,
    no map is passed and the context has none, and what it throws
    then is the initialization error, in the unchanged state; for a
    null value and for a value that is not text it returns and changes
    nothing, map or no map. *)
Theorem set_tainted_object_error_taxonomy s str t tx :
  value_ok s str →
  ((∃ e s', set_tainted_object str t tx s = Throw e s')
   ↔ text_like s str = true ∧ tx = nullptr ∧ tainting_map s = nullptr)
  ∧ (text_like s str = true ∧ tx = nullptr ∧ tainting_map s = nullptr
     → set_tainted_object str t tx s = Throw not_initialized s)
  ∧ (text_like s str = false → set_tainted_object str t tx s = Ok tt s).
Proof.
  intros Hv. pose proof (is_text_defined s str Hv) as Htext.
  assert (Hthrow : text_like s str = true ∧ tx = nullptr ∧ tainting_map s = nullptr
                   → set_tainted_object str t tx s = Throw not_initialized s).
  { intros (Ht & -> & Hmap). unfold set_tainted_object.
    destruct (Z.eqb_spec str nullptr) as [->|_]; [done|].
    rewrite (bind_ok _ _ _ _ _ Htext), Ht. simpl.
    unfold map_or_throw, Initializer.get_tainting_map, bind. simpl.
    by rewrite Hmap. }
  split; [split|split; [exact Hthrow|]].
  - intros (e & s' & Hrun). unfold set_tainted_object in Hrun.
    destruct (Z.eqb_spec str nullptr) as [->|_]; [done|].
    rewrite (bind_ok _ _ _ _ _ Htext) in Hrun.
    destruct (text_like s str); [simpl in Hrun|done].
    split; [done|]. unfold map_or_throw in Hrun.
    destruct (Z.eqb_spec tx nullptr) as [->|Htx].
    + split; [done|].
      unfold Initializer.get_tainting_map in Hrun. unfold bind at 1 2 in Hrun.
      destruct (Z.eqb_spec (tainting_map s) nullptr) as [?|?]; [done|].
      by destruct (set_tainted_object_tail_never_throws str t (tainting_map s) s e s').
    + unfold bind at 1 in Hrun. unfold ret at 1 in Hrun.
      by destruct (set_tainted_object_tail_never_throws str t tx s e s').
  - intros H. rewrite (Hthrow H). by eexists _, _.
  - intros Ht. unfold set_tainted_object.
    destruct (Z.eqb_spec str nullptr) as [->|_]; [done|].
    by rewrite (bind_ok _ _ _ _ _ Htext), Ht.
Qed.

(** X10: replacing the container of an existing entry: for a text
    value with a computed hash whose entry refers to another live
    container, [set_tainted_object] releases the old container, gives
    the new one a reference and points the entry at it; the cached
    hash of the entry is kept as it was.  When that cached hash is the
    value's hash, the lookups that follow return the new container and
    its ranges. *)
Theorem set_tainted_object_replaces s v o tx m cached old t oo to :
  v ≠ nullptr → py_objects s !! v = Some o → ob_text o = true →
  ob_hash o ≠ -1 →
  resolve_map tx s ≠ nullptr → taint_maps s !! resolve_map tx s = Some m →
  m !! get_unique_id v = Some (cached, old) →
  old ≠ t →
  old ≠ nullptr → tainted_objects s !! old = Some oo →
  t ≠ nullptr → tainted_objects s !! t = Some to →
  ∃ s', set_tainted_object v t tx s = Ok tt s'
        ∧ (∃ m', taint_maps s' !! resolve_map tx s = Some m'
                 ∧ m' !! get_unique_id v = Some (cached, t)
                 ∧ ∀ k, k ≠ get_unique_id v → m' !! k = m !! k)
        ∧ tainted_objects s' !! t
          = Some (TaintedObjectData.mk (TaintedObjectData.ranges_ to)
                                       (TaintedObjectData.rc_ to + 1))
        ∧ tainted_objects s' !! old
          = (if TaintedObjectData.rc_ oo =? 1 then None
             else Some (TaintedObjectData.mk (TaintedObjectData.ranges_ oo)
                                             (TaintedObjectData.rc_ oo - 1)))
        ∧ (cached = ob_hash o →
           get_tainted_object v tx s' = Ok t s'
           ∧ get_ranges v tx s' = Ok (TaintedObjectData.ranges_ to) s').
Proof.
  intros Hv Ho Htext Hhash Hmp Hm Hentry Hne Hold Hoo Ht Hto.
  set (s1 := with_tainted_objects (release old) s).
  set (to' := TaintedObjectData.mk (TaintedObjectData.ranges_ to)
                                   (TaintedObjectData.rc_ to + 1)).
  set (s2 := with_tainted_objects <[t := to']> s1).
  set (s' := with_taint_maps <[resolve_map tx s := <[v := (cached, t)]> m]> s2).
  assert (Hto1 : tainted_objects s1 !! t = Some to).
  { unfold s1. simpl. by rewrite release_lookup_ne. }
  assert (Hrun : set_tainted_object v t tx s = Ok tt s').
  { unfold set_tainted_object.
    destruct (Z.eqb_spec v nullptr) as [?|_]; [done|].
    rewrite (bind_ok _ _ _ _ _ (is_text_ok s v o Hv Ho)), Htext. simpl.
    rewrite (bind_ok _ _ _ _ _ (map_or_throw_ok tx s Hmp)).
    rewrite (bind_ok _ _ _ _ _ (map_at_ok _ s m Hmp Hm)).
    rewrite (bind_ok _ _ _ _ _ (PyASCII_hash_ok s v o Hv Ho)).
    rewrite Hentry.
    destruct (Z.eqb_spec (ob_hash o) (-1)) as [?|_]; [done|].
    unfold bind at 1. unfold ret at 1.
    destruct (Z.eqb_spec old t) as [?|_]; [done|]. simpl.
    rewrite (bind_ok _ _ _ _ _ (decref_ok s old oo Hold Hoo)). fold s1.
    by rewrite (bind_ok _ _ _ _ _ (incref_ok s1 t to Ht Hto1)). }
  assert (Hnew : tainted_objects s' !! t = Some to').
  { unfold s'. simpl. apply lookup_insert_eq. }
  assert (Hm' : taint_maps s' !! resolve_map tx s' = Some (<[v := (cached, t)]> m)).
  { unfold s'. simpl. apply lookup_insert_eq. }
  exists s'. split; [exact Hrun|]. split; [|split; [exact Hnew|split]].
  - eexists. split; [exact Hm'|]. split; [apply lookup_insert_eq|].
    intros k Hk. by rewrite lookup_insert_ne.
  - unfold s'. simpl. rewrite lookup_insert_ne by done.
    unfold release. rewrite Hoo.
    destruct (Z.eqb_spec (TaintedObjectData.rc_ oo - 1) 0) as [H0|H0];
      destruct (Z.eqb_spec (TaintedObjectData.rc_ oo) 1) as [H1|H1]; try lia.
    + apply lookup_delete_eq.
    + apply lookup_insert_eq.
  - intros ->. split.
    + apply (get_tainted_object_hit s' v o tx (<[v := (ob_hash o, t)]> m)); try done.
      apply lookup_insert_eq.
    + apply (get_ranges_hit s' v o tx (<[v := (ob_hash o, t)]> m) t to'); try done.
      apply lookup_insert_eq.
Qed.


(** * Further properties of shifting and comparison *)

Lemma TaintRange_eq_ok s r rr q qq :
  r ≠ nullptr → taint_ranges s !! r = Some rr →
  q ≠ nullptr → taint_ranges s !! q = Some qq →
  TaintRange___eq__ r q s
  = Ok ((TaintRange.start rr =? TaintRange.start qq)
        && (TaintRange.length rr =? TaintRange.length qq)) s.
Proof.
  intros Hr Hrr Hq Hqq. unfold TaintRange___eq__.
  destruct (Z.eqb_spec q nullptr) as [?|_]; [done|].
  rewrite (bind_ok _ _ _ _ _ (load_ok taint_ranges r s rr Hr Hrr)).
  by rewrite (bind_ok _ _ _ _ _ (load_ok taint_ranges q s qq Hq Hqq)).
Qed.

Lemma TaintRange_ne_ok s r rr q qq :
  r ≠ nullptr → taint_ranges s !! r = Some rr →
  q ≠ nullptr → taint_ranges s !! q = Some qq →
  TaintRange___ne__ r q s
  = Ok (negb ((TaintRange.start rr =? TaintRange.start qq)
              && (TaintRange.length rr =? TaintRange.length qq))) s.
Proof.
  intros Hr Hrr Hq Hqq. unfold TaintRange___ne__.
  destruct (Z.eqb_spec q nullptr) as [?|_]; [done|].
  rewrite (bind_ok _ _ _ _ _ (load_ok taint_ranges r s rr Hr Hrr)).
  rewrite (bind_ok _ _ _ _ _ (load_ok taint_ranges q s qq Hq Hqq)).
  by rewrite negb_andb.
Qed.

Lemma wrap_long_add_l a b : wrap_long (wrap_long a + b) = wrap_long (a + b).
Proof.
  unfold wrap_long. f_equal.
  replace ((a + 2 ^ 63) mod 2 ^ 64 - 2 ^ 63 + b + 2 ^ 63)
    with ((a + 2 ^ 63) mod 2 ^ 64 + b) by lia.
  rewrite Zplus_mod_idemp_l. f_equal. lia.
Qed.

Lemma wrap_long_add_r a b : wrap_long (a + wrap_long b) = wrap_long (a + b).
Proof. rewrite (Z.add_comm a), wrap_long_add_l. f_equal. lia. Qed.

Lemma wrap_long_fixed a o :
  is_long a → is_long o → wrap_long (a + o) = a ↔ o = 0.
Proof.
  unfold is_long, wrap_long. intros Ha Ho.
  pose proof (Z.div_mod (a + o + 2 ^ 63) (2 ^ 64) ltac:(done)) as Hdiv.
  pose proof (Z.mod_pos_bound (a + o + 2 ^ 63) (2 ^ 64) ltac:(done)) as Hmod.
  split.
  - intros Heq. lia.
  - intros ->. rewrite Z.add_0_r, Z.mod_small; lia.
Qed.

(** X12: shifts compose in the arithmetic of [RANGE_START]: shifting
    a range by [o1] and the result by [o2] gives a range with the same
    contents as shifting the original by the sum of [o1] and [o2] as
    that type holds it, for all offsets, wrapped or not; the original
    is still what it was. *)
Theorem shift_shift s r rr o1 o2 :
  r ≠ nullptr → taint_ranges s !! r = Some rr →
  ∃ p1 s1 p2 s2 q s3 new,
    api_shift_taint_range r o1 s = Ok p1 s1
    ∧ api_shift_taint_range p1 o2 s1 = Ok p2 s2
    ∧ api_shift_taint_range r (wrap_long (o1 + o2)) s = Ok q s3
    ∧ taint_ranges s2 !! p2 = Some new
    ∧ taint_ranges s3 !! q = Some new
    ∧ taint_ranges s2 !! r = Some rr.
Proof.
  intros Hr Hrr.
  set (p1 := fresh_addr (taint_ranges s)).
  set (r1 := TaintRange.mk (wrap_long (TaintRange.start rr + o1)) (TaintRange.length rr)
                           (TaintRange.source rr)).
  set (s1 := with_taint_ranges <[p1 := r1]> s).
  assert (Hp1 : taint_ranges s1 !! p1 = Some r1) by apply lookup_insert_eq.
  assert (Hp1r : p1 ≠ r).
  { intros Heq. unfold p1 in Heq. by rewrite <- Heq, fresh_addr_None in Hrr. }
  assert (Hr1 : taint_ranges s1 !! r = Some rr).
  { unfold s1. simpl. by rewrite lookup_insert_ne. }
  exists p1, s1. eexists _, _, _, _, _.
  split; [by apply api_shift_taint_range_ok|].
  split; [by apply (api_shift_taint_range_ok s1 p1 r1 o2 (fresh_addr_nonnull _))|].
  split; [by apply api_shift_taint_range_ok|].
  split; [apply lookup_insert_eq|].
  split.
  - simpl. rewrite lookup_insert_eq. f_equal. unfold r1. simpl. f_equal.
    rewrite wrap_long_add_l, wrap_long_add_r. f_equal. lia.
  - simpl. rewrite lookup_insert_ne; [done|].
    intros Heq. by rewrite <- Heq, fresh_addr_None in Hr1.
Qed.

(** X13: a range and its shift compare equal exactly when the offset
    is zero: for a start and an offset that are values of
    [RANGE_START], after [api_shift_taint_range r o], [__eq__] of [r]
    and the new range is the test [o = 0], and [__ne__] is its
    negation. *)
Theorem shift_eq_iff_zero_offset s r rr o :
  r ≠ nullptr → taint_ranges s !! r = Some rr →
  is_long (TaintRange.start rr) → is_long o →
  ∃ p s', api_shift_taint_range r o s = Ok p s'
          ∧ TaintRange___eq__ r p s' = Ok (bool_decide (o = 0)) s'
          ∧ TaintRange___ne__ r p s' = Ok (negb (bool_decide (o = 0))) s'.
Proof.
  intros Hr Hrr Hstart Ho. eexists _, _.
  split; [by apply api_shift_taint_range_ok|].
  set (p := fresh_addr (taint_ranges s)).
  set (new := TaintRange.mk _ _ _).
  set (s' := with_taint_ranges _ s).
  assert (Hp : p ≠ nullptr) by apply fresh_addr_nonnull.
  assert (Hnew : taint_ranges s' !! p = Some new) by apply lookup_insert_eq.
  assert (Hold : taint_ranges s' !! r = Some rr).
  { unfold s'. simpl. rewrite lookup_insert_ne; [done|].
    intros Heq. unfold p in Heq. by rewrite <- Heq, fresh_addr_None in Hrr. }
  assert (Hcmp : (TaintRange.start rr =? TaintRange.start new)
                 && (TaintRange.length rr =? TaintRange.length new)
                 = bool_decide (o = 0)).
  { unfold new. simpl. rewrite Z.eqb_refl, andb_true_r.
    pose proof (wrap_long_fixed (TaintRange.start rr) o Hstart Ho) as Hfix.
    destruct (Z.eqb_spec (TaintRange.start rr) (wrap_long (TaintRange.start rr + o)))
      as [Heq|Hne].
    - rewrite bool_decide_eq_true_2; [done|]. by apply Hfix.
    - rewrite bool_decide_eq_false_2; [done|]. intros H0. apply Hne.
      symmetry. by apply Hfix. }
  split.
  - by rewrite (TaintRange_eq_ok s' r rr p new Hr Hold Hp Hnew), Hcmp.
  - by rewrite (TaintRange_ne_ok s' r rr p new Hr Hold Hp Hnew), Hcmp.
Qed.

Lemma shift_loop_null o todo : ∀ s acc,
  nullptr ∈ todo → shift_loop todo o acc s = Undefined.
Proof.
  induction todo as [|r todo IH]; intros s acc Hin.
  - by apply elem_of_nil in Hin.
  - simpl. unfold bind at 1. unfold api_shift_taint_range, bind at 1, load.
    destruct (Z.eqb_spec r nullptr) as [?|Hr]; [done|].
    destruct (taint_ranges s !! r) as [rr|]; [|done].
    unfold Initializer.allocate_taint_range.
    apply IH. apply elem_of_cons in Hin as [?|?]; [congruence|done].
Qed.

(** X14: [api_shift_taint_ranges] dereferences every element: on a
    sequence that contains a null pointer the call has no defined
    result, wherever the null pointer stands. *)
Theorem shift_ranges_null_element s rs o :
  nullptr ∈ rs → api_shift_taint_ranges rs o s = Undefined.
Proof. apply shift_loop_null. Qed.

(** X15: on live ranges [__eq__] is an equivalence: it holds between a
    range and itself, it does not depend on the order of its
    arguments, and it carries over from two pairs to the third. *)
Theorem TaintRange_eq_equivalence s r1 x1 r2 x2 r3 x3 :
  r1 ≠ nullptr → taint_ranges s !! r1 = Some x1 →
  r2 ≠ nullptr → taint_ranges s !! r2 = Some x2 →
  r3 ≠ nullptr → taint_ranges s !! r3 = Some x3 →
  TaintRange___eq__ r1 r1 s = Ok true s
  ∧ TaintRange___eq__ r1 r2 s = TaintRange___eq__ r2 r1 s
  ∧ (TaintRange___eq__ r1 r2 s = Ok true s → TaintRange___eq__ r2 r3 s = Ok true s
     → TaintRange___eq__ r1 r3 s = Ok true s).
Proof.
  intros H1 Hx1 H2 Hx2 H3 Hx3.
  rewrite (TaintRange_eq_ok s r1 x1 r1 x1), (TaintRange_eq_ok s r1 x1 r2 x2),
    (TaintRange_eq_ok s r2 x2 r1 x1), (TaintRange_eq_ok s r2 x2 r3 x3),
    (TaintRange_eq_ok s r1 x1 r3 x3) by done.
  split; [by rewrite !Z.eqb_refl|]. split.
  - by rewrite (Z.eqb_sym (TaintRange.start x1)), (Z.eqb_sym (TaintRange.length x1)).
  - intros H12 H23. injection H12 as H12. injection H23 as H23.
    apply andb_true_iff in H12 as [?%Z.eqb_eq ?%Z.eqb_eq].
    apply andb_true_iff in H23 as [?%Z.eqb_eq ?%Z.eqb_eq].
    f_equal. apply andb_true_iff. split; apply Z.eqb_eq; congruence.
Qed.

(** * Hashes of ranges *)

Lemma lxor_uint_bound a b :
  0 ≤ a < 2 ^ 32 → 0 ≤ b < 2 ^ 32 → 0 ≤ Z.lxor a b < 2 ^ 32.
Proof.
  intros Ha Hb.
  assert (Hnn : 0 ≤ Z.lxor a b) by (apply Z.lxor_nonneg; lia).
  split; [done|].
  destruct (decide (Z.lxor a b = 0)) as [->|Hne]; [done|].
  apply Z.log2_lt_pow2; [lia|].
  pose proof (Z.log2_lxor a b) as Hlog.
  assert (Hla : Z.log2 a < 32).
  { destruct (decide (a = 0)) as [->|?]; [done|]. apply Z.log2_lt_pow2; lia. }
  assert (Hlb : Z.log2 b < 32).
  { destruct (decide (b = 0)) as [->|?]; [done|]. apply Z.log2_lt_pow2; lia. }
  lia.
Qed.

Lemma to_uint_bound z : 0 ≤ to_uint z < 2 ^ 32.
Proof. unfold to_uint. apply Z.mod_pos_bound. done. Qed.

Lemma lxor_cancel_l a x y : Z.lxor a x = Z.lxor a y → x = y.
Proof.
  intros H. apply (f_equal (Z.lxor a)) in H.
  by rewrite <- !Z.lxor_assoc, Z.lxor_nilpotent, !Z.lxor_0_l in H.
Qed.

Section HashFacts.
Variable std_hash : Z → Z.
Variable Source_get_hash : Source → Z.
Variable Source_reset : Source → Source.

Lemma get_hash_ok s r rr :
  r ≠ nullptr → taint_ranges s !! r = Some rr →
  get_hash std_hash Source_get_hash r s
  = Ok (Z.lxor
          (Z.lxor (to_uint (std_hash (to_uint (TaintRange.start rr))))
                  (to_uint (std_hash (to_uint (TaintRange.length rr)))))
          (to_uint (std_hash (to_uint (Source_get_hash (TaintRange.source rr)))))) s.
Proof.
  intros Hr Hrr. unfold get_hash.
  by rewrite (bind_ok _ _ _ _ _ (load_ok taint_ranges r s rr Hr Hrr)).
Qed.

Lemma get_hash_inv s r h s' :
  get_hash std_hash Source_get_hash r s = Ok h s' →
  ∃ rr, r ≠ nullptr ∧ taint_ranges s !! r = Some rr ∧ s' = s.
Proof.
  unfold get_hash, bind, load. intros H.
  destruct (Z.eqb_spec r nullptr) as [?|Hr]; [done|].
  destruct (taint_ranges s !! r) as [rr|]; [|done].
  unfold ret in H. injection H as _ <-. by exists rr.
Qed.

(** The hash of a range fits an unsigned 32-bit integer: whatever
    [std::hash] and the hash of the source return, a result of
    [get_hash] lies between 0 and 2^32 - 1, and the call changes
    nothing. *)
Lemma get_hash_bound s r h s' :
  get_hash std_hash Source_get_hash r s = Ok h s' →
  0 ≤ h < 2 ^ 32 ∧ s' = s.
Proof.
  intros H. destruct (get_hash_inv s r h s' H) as (rr & Hr & Hrr & ->).
  rewrite (get_hash_ok s r rr Hr Hrr) in H. injection H as <-.
  split; [|done].
  apply lxor_uint_bound; [apply lxor_uint_bound|]; apply to_uint_bound.
Qed.

(** X17: collisions of [get_hash]: the hash sees the start, the length
    and the hash of the source only modulo 2^32, and it does not tell
    the start from the length: two ranges whose sources hash alike and
    whose starts and lengths agree modulo 2^32, in the same or in the
    opposite order, have the same hash. *)
Theorem get_hash_collisions s r1 x1 r2 x2 :
  r1 ≠ nullptr → taint_ranges s !! r1 = Some x1 →
  r2 ≠ nullptr → taint_ranges s !! r2 = Some x2 →
  to_uint (Source_get_hash (TaintRange.source x1))
  = to_uint (Source_get_hash (TaintRange.source x2)) →
  (to_uint (TaintRange.start x1) = to_uint (TaintRange.start x2)
   ∧ to_uint (TaintRange.length x1) = to_uint (TaintRange.length x2))
  ∨ (to_uint (TaintRange.start x1) = to_uint (TaintRange.length x2)
     ∧ to_uint (TaintRange.length x1) = to_uint (TaintRange.start x2)) →
  get_hash std_hash Source_get_hash r1 s = get_hash std_hash Source_get_hash r2 s.
Proof.
  intros H1 Hx1 H2 Hx2 Hsrc Hcase.
  rewrite (get_hash_ok s r1 x1 H1 Hx1), (get_hash_ok s r2 x2 H2 Hx2), Hsrc.
  destruct Hcase as [[-> ->]|[-> ->]]; [done|].
  f_equal. f_equal. apply Z.lxor_comm.
Qed.

(** X18: equality and hash can disagree: two ranges that [__eq__]
    finds equal have the same hash exactly when the hashes of their
    sources, as [get_hash] sees them, are the same. *)
Theorem eq_ranges_hash_iff_sources s r1 x1 r2 x2 :
  r1 ≠ nullptr → taint_ranges s !! r1 = Some x1 →
  r2 ≠ nullptr → taint_ranges s !! r2 = Some x2 →
  TaintRange___eq__ r1 r2 s = Ok true s →
  (get_hash std_hash Source_get_hash r1 s = get_hash std_hash Source_get_hash r2 s
   ↔ to_uint (std_hash (to_uint (Source_get_hash (TaintRange.source x1))))
     = to_uint (std_hash (to_uint (Source_get_hash (TaintRange.source x2))))).
Proof.
  intros H1 Hx1 H2 Hx2 Heq.
  rewrite (TaintRange_eq_ok s r1 x1 r2 x2 H1 Hx1 H2 Hx2) in Heq.
  injection Heq as Heq. apply andb_true_iff in Heq as [Hs%Z.eqb_eq Hl%Z.eqb_eq].
  rewrite (get_hash_ok s r1 x1 H1 Hx1), (get_hash_ok s r2 x2 H2 Hx2), Hs, Hl.
  split.
  - intros H. injection H as H. by apply lxor_cancel_l in H.
  - by intros ->.
Qed.

(** X19: [reset] recycles one range in place: the range at that
    address ends with start 0, length 0 and the cleared source, every
    other range and every other part of the state is untouched (so the
    containers that share the range now see the cleared one), and the
    hash of the range is then made of its source alone. *)
Theorem reset_effect s r rr :
  r ≠ nullptr → taint_ranges s !! r = Some rr →
  ∃ s', reset Source_reset r s = Ok tt s'
        ∧ taint_ranges s' !! r
          = Some (TaintRange.mk 0 0 (Source_reset (TaintRange.source rr)))
        ∧ (∀ q, q ≠ r → taint_ranges s' !! q = taint_ranges s !! q)
        ∧ tainted_objects s' = tainted_objects s
        ∧ taint_maps s' = taint_maps s
        ∧ py_objects s' = py_objects s
        ∧ get_hash std_hash Source_get_hash r s'
          = Ok (to_uint (std_hash (to_uint
                  (Source_get_hash (Source_reset (TaintRange.source rr)))))) s'.
Proof.
  intros Hr Hrr. eexists. split.
  { unfold reset. by rewrite (bind_ok _ _ _ _ _ (load_ok taint_ranges r s rr Hr Hrr)). }
  set (s' := with_taint_ranges _ s).
  assert (Hnew : taint_ranges s' !! r
                 = Some (TaintRange.mk 0 0 (Source_reset (TaintRange.source rr))))
    by apply lookup_insert_eq.
  split; [exact Hnew|]. split; [|split; [done|split; [done|split; [done|]]]].
  - intros q Hq. unfold s'. simpl. by rewrite lookup_insert_ne.
  - rewrite (get_hash_ok s' r _ Hr Hnew). simpl.
    by rewrite Z.lxor_nilpotent, Z.lxor_0_l.
Qed.

End HashFacts.

(** * Lookup by hash *)

Section HashLookup.
Variable std_hash : Z → Z.
Variable Source_get_hash : Source → Z.

Lemma by_hash_loop_spec h rs s :
  Forall (range_ok s) rs →
  ∃ p, by_hash_loop std_hash Source_get_hash h rs s = Ok p s
       ∧ ((p = nullptr
           ∧ Forall (λ r, get_hash std_hash Source_get_hash r s ≠ Ok h s) rs)
          ∨ (p ≠ nullptr
             ∧ ∃ l1 l2, rs = l1 ++ p :: l2
                        ∧ get_hash std_hash Source_get_hash p s = Ok h s
                        ∧ Forall (λ r, get_hash std_hash Source_get_hash r s ≠ Ok h s) l1)).
Proof.
  induction rs as [|r rs IH]; intros Hall.
  - exists nullptr. split; [done|]. left. split; [done|constructor].
  - apply Forall_cons in Hall as [[Hr [rr Hrr]] Hall].
    pose proof (get_hash_ok std_hash Source_get_hash s r rr Hr Hrr) as Hh.
    simpl. rewrite (bind_ok _ _ _ _ _ Hh).
    set (hr := Z.lxor _ _) in *.
    destruct (Z.eqb_spec h hr) as [->|Hne].
    + exists r. split; [done|]. right. split; [done|].
      exists [], rs. split; [done|]. split; [done|constructor].
    + destruct (IH Hall) as (p & Hrun & Hcase). exists p. split; [exact Hrun|].
      assert (Hmiss : get_hash std_hash Source_get_hash r s ≠ Ok h s).
      { rewrite Hh. intros Heq. injection Heq as Heq. congruence. }
      destruct Hcase as [[-> Hnone]|[Hp (l1 & l2 & -> & Hhit & Hbefore)]].
      * left. split; [done|]. by constructor.
      * right. split; [done|]. exists (r :: l1), l2.
        split; [done|]. split; [done|]. by constructor.
Qed.

(** [get_range_by_hash] returns the first match: without a
    sequence the answer is null; on a sequence of live ranges the call
    changes nothing and returns either null, and then no range of the
    sequence has the hash, or a range of the sequence that has the
    hash and is preceded only by ranges that do not have it. *)
Lemma get_range_by_hash_spec s h rs :
  Forall (range_ok s) rs →
  get_range_by_hash std_hash Source_get_hash h None s = Ok nullptr s
  ∧ ∃ p, get_range_by_hash std_hash Source_get_hash h (Some rs) s = Ok p s
         ∧ ((p = nullptr
             ∧ Forall (λ r, get_hash std_hash Source_get_hash r s ≠ Ok h s) rs)
            ∨ (p ≠ nullptr
               ∧ ∃ l1 l2, rs = l1 ++ p :: l2
                          ∧ get_hash std_hash Source_get_hash p s = Ok h s
                          ∧ Forall (λ r, get_hash std_hash Source_get_hash r s ≠ Ok h s)
                                   l1)).
Proof.
  intros Hall. split; [done|].
  unfold get_range_by_hash. case_bool_decide as Hempty.
  - subst rs. exists nullptr. split; [done|]. left. split; [done|constructor].
  - by apply by_hash_loop_spec.
Qed.

(** X21: looking a range up by its own hash: in a sequence of live
    ranges that contains [r], the lookup of the hash of [r] returns a
    range with that hash, never null; it returns [r] itself when no
    other range of the sequence has the same hash. *)
Theorem get_range_by_own_hash s h rs r :
  Forall (range_ok s) rs → r ∈ rs →
  get_hash std_hash Source_get_hash r s = Ok h s →
  ∃ p, get_range_by_hash std_hash Source_get_hash h (Some rs) s = Ok p s
       ∧ p ≠ nullptr ∧ p ∈ rs
       ∧ get_hash std_hash Source_get_hash p s = Ok h s
       ∧ ((∀ q, q ∈ rs → get_hash std_hash Source_get_hash q s = Ok h s → q = r)
          → p = r).
Proof.
  intros Hall Hin Hr.
  destruct (get_range_by_hash_spec s h rs Hall) as [_ (p & Hrun & Hcase)].
  exists p. split; [exact Hrun|].
  destruct Hcase as [[-> Hnone]|[Hp (l1 & l2 & -> & Hhit & Hbefore)]].
  - by destruct (proj1 (Forall_forall _ _) Hnone r Hin).
  - assert (Hpin : p ∈ l1 ++ p :: l2).
    { apply elem_of_app. right. apply elem_of_cons. by left. }
    split; [done|]. split; [done|]. split; [done|].
    intros Huniq. by apply Huniq.
Qed.

(** X22: hashes that no range can have: when the hash asked for does
    not fit 32 bits, the lookup in a sequence of live ranges returns
    null, whatever the ranges are. *)
Theorem get_range_by_hash_out_of_range s h rs :
  Forall (range_ok s) rs → 2 ^ 32 ≤ h →
  get_range_by_hash std_hash Source_get_hash h (Some rs) s = Ok nullptr s.
Proof.
  intros Hall Hout.
  destruct (get_range_by_hash_spec s h rs Hall) as [_ (p & Hrun & Hcase)].
  destruct Hcase as [[-> _]|[_ (l1 & l2 & _ & Hhit & _)]]; [done|].
  destruct (get_hash_bound std_hash Source_get_hash s p h s Hhit). lia.
Qed.

End HashLookup.

(** * The further properties, as stated and at sample states *)

(** X2: [get_ranges] returns ranges only from a matching entry: a
    result that is not empty comes from a text value, a map that
    could be resolved, and an entry under the value's identity whose
    cached hash is the value's hash; it is the sequence held by the
    container of that entry, and the state is unchanged. *)
Theorem get_ranges_nonempty_from_entry s v tx rs s' :
  get_ranges v tx s = Ok rs s' → rs ≠ [] →
  ∃ o m tobj to,
    v ≠ nullptr ∧ py_objects s !! v = Some o ∧ ob_text o = true
    ∧ resolve_map tx s ≠ nullptr ∧ taint_maps s !! resolve_map tx s = Some m
    ∧ m !! get_unique_id v = Some (ob_hash o, tobj)
    ∧ tobj ≠ nullptr ∧ tainted_objects s !! tobj = Some to
    ∧ rs = TaintedObjectData.ranges_ to ∧ s' = s.
Proof. apply get_ranges_hit_inv. Qed.

Lemma get_ranges_nonempty_from_entry_witness :
  ∃ o m tobj to,
    (100 : Z) ≠ nullptr ∧ py_objects operands_state !! 100 = Some o ∧ ob_text o = true
    ∧ resolve_map 0 operands_state ≠ nullptr
    ∧ taint_maps operands_state !! resolve_map 0 operands_state = Some m
    ∧ m !! get_unique_id 100 = Some (ob_hash o, tobj)
    ∧ tobj ≠ nullptr ∧ tainted_objects operands_state !! tobj = Some to
    ∧ [50] = TaintedObjectData.ranges_ to ∧ operands_state = operands_state.
Proof.
  apply (get_ranges_nonempty_from_entry operands_state 100 0 [50] operands_state);
    [reflexivity|done].
Defined.

(** X3: the misses of [get_ranges]: for a value that can be inspected,
    the result is the empty sequence, in the unchanged state, when the
    value is null or not text, when no map can be resolved, and when
    the map (empty or not) has no entry under the value's identity. *)
Theorem get_ranges_misses s v tx :
  value_ok s v →
  text_like s v = false
  ∨ resolve_map tx s = nullptr
  ∨ (∃ m, taint_maps s !! resolve_map tx s = Some m ∧ m !! get_unique_id v = None) →
  get_ranges v tx s = Ok [] s.
Proof. apply get_ranges_miss. Qed.

Lemma get_ranges_misses_witness :
  get_ranges 300 0 operands_state = Ok [] operands_state
  ∧ get_ranges 100 0 no_context_state = Ok [] no_context_state
  ∧ get_ranges 100 0 demo_state = Ok [] demo_state.
Proof.
  split; [|split].
  - apply (get_ranges_misses operands_state 300 0); [right; by eexists|by left].
  - apply (get_ranges_misses no_context_state 100 0); [right; by eexists|].
    right. by left.
  - apply (get_ranges_misses demo_state 100 0); [right; by eexists|].
    right. right. by exists {[ 200 := (9, 1) ]}.
Defined.

Lemma set_ranges_preserves_invariants_witness :
  ∃ s', set_ranges 200 [50] 0 demo_state = Ok tt s'
        ∧ entries_live s' ∧ counts_ok s'.
Proof.
  eexists. split; [vm_compute; reflexivity|].
  apply (set_ranges_preserves_invariants demo_state 200 [50] 0).
  - apply entries_live_demo.
  - apply counts_ok_demo.
  - vm_compute. reflexivity.
Defined.

Lemma set_ranges_frame_witness :
  ∃ s', set_ranges 100 [52] 0 operands_state = Ok tt s'
        ∧ get_ranges 200 0 s' = Ok [51] s'.
Proof.
  eexists. split; [vm_compute; reflexivity|].
  apply (set_ranges_frame operands_state 100 [52] 0 _ 200 0 [51]).
  - apply (bool_decide_unpack _). by vm_compute.
  - apply (bool_decide_unpack _). by vm_compute.
  - vm_compute. reflexivity.
  - done.
  - reflexivity.
Defined.

(** X6: a hit of [get_tainted_object] is a pure lookup: when the map
    has an entry under the value's identity whose cached hash is the
    value's hash, the call returns the stored pointer and changes
    nothing; it neither asks whether the value is text nor touches the
    container. *)
Theorem get_tainted_object_hit_read_only s v o tx m tobj :
  v ≠ nullptr → py_objects s !! v = Some o →
  resolve_map tx s ≠ nullptr → taint_maps s !! resolve_map tx s = Some m →
  m !! get_unique_id v = Some (ob_hash o, tobj) →
  get_tainted_object v tx s = Ok tobj s.
Proof. apply get_tainted_object_hit. Qed.

Lemma get_tainted_object_hit_read_only_witness :
  get_tainted_object 200 0 demo_state = Ok 1 demo_state.
Proof.
  apply (get_tainted_object_hit_read_only demo_state 200 (mkPyObject 1 true 9 9) 0
           {[ 200 := (9, 1) ]} 1); done.
Defined.


Lemma set_tainted_object_error_taxonomy_witness :
  set_tainted_object 100 1 0 no_context_state = Throw not_initialized no_context_state
  ∧ set_tainted_object 300 1 0 operands_state = Ok tt operands_state.
Proof.
  split.
  - apply (proj1 (proj2 (set_tainted_object_error_taxonomy no_context_state 100 1 0
                           (or_intror (ex_intro _ _ eq_refl))))). done.
  - apply (proj2 (proj2 (set_tainted_object_error_taxonomy operands_state 300 1 0
                           (or_intror (ex_intro _ _ eq_refl))))). done.
Defined.

Lemma set_tainted_object_replaces_witness :
  ∃ s', set_tainted_object 100 2 0 operands_state = Ok tt s'
        ∧ tainted_objects s' !! 2 = Some (TaintedObjectData.mk [51] 2)
        ∧ tainted_objects s' !! 1 = None
        ∧ get_tainted_object 100 0 s' = Ok 2 s'
        ∧ get_ranges 100 0 s' = Ok [51] s'.
Proof.
  destruct (set_tainted_object_replaces operands_state 100 (mkPyObject 1 true 7 7) 0
              {[ 100 := (7, 1); 200 := (9, 2); 400 := (4, 3) ]} 7 1 2
              (TaintedObjectData.mk [50] 1) (TaintedObjectData.mk [51] 1))
    as (s' & Hrun & _ & Hnew & Hold & Hget); try done.
  exists s'. destruct (Hget eq_refl) as [Hobj Hranges]. done.
Defined.


Lemma shift_shift_witness :
  ∃ p1 s1 p2 s2 q s3 new,
    api_shift_taint_range 70 1 overflow_state = Ok p1 s1
    ∧ api_shift_taint_range p1 (-1) s1 = Ok p2 s2
    ∧ api_shift_taint_range 70 (wrap_long (1 + -1)) overflow_state = Ok q s3
    ∧ taint_ranges s2 !! p2 = Some new
    ∧ taint_ranges s3 !! q = Some new
    ∧ taint_ranges s2 !! 70 = Some (TaintRange.mk (2 ^ 63 - 1) 1 (mkSource "q" 1 "a")).
Proof.
  apply (shift_shift overflow_state 70
           (TaintRange.mk (2 ^ 63 - 1) 1 (mkSource "q" 1 "a")) 1 (-1)); done.
Defined.

Lemma shift_eq_iff_zero_offset_witness :
  (∃ p s', api_shift_taint_range 51 0 operands_state = Ok p s'
           ∧ TaintRange___eq__ 51 p s' = Ok true s'
           ∧ TaintRange___ne__ 51 p s' = Ok false s')
  ∧ (∃ p s', api_shift_taint_range 51 3 operands_state = Ok p s'
             ∧ TaintRange___eq__ 51 p s' = Ok false s'
             ∧ TaintRange___ne__ 51 p s' = Ok true s').
Proof.
  split.
  - apply (shift_eq_iff_zero_offset operands_state 51
             (TaintRange.mk 2 3 (mkSource "h" 2 "xyz")) 0); try done.
  - apply (shift_eq_iff_zero_offset operands_state 51
             (TaintRange.mk 2 3 (mkSource "h" 2 "xyz")) 3); try done.
Defined.

Lemma shift_ranges_null_element_witness :
  api_shift_taint_ranges [50; nullptr; 51] 3 operands_state = Undefined.
Proof.
  apply (shift_ranges_null_element operands_state [50; nullptr; 51] 3).
  apply elem_of_cons. right. apply elem_of_cons. by left.
Defined.

Lemma TaintRange_eq_equivalence_witness :
  TaintRange___eq__ 50 50 operands_state = Ok true operands_state
  ∧ TaintRange___eq__ 50 52 operands_state = TaintRange___eq__ 52 50 operands_state
  ∧ (TaintRange___eq__ 50 52 operands_state = Ok true operands_state
     → TaintRange___eq__ 52 50 operands_state = Ok true operands_state
     → TaintRange___eq__ 50 50 operands_state = Ok true operands_state).
Proof.
  apply (TaintRange_eq_equivalence operands_state
           50 (TaintRange.mk 0 4 (mkSource "q" 1 "abcd"))
           52 (TaintRange.mk 0 4 (mkSource "c" 3 "wxyz"))
           50 (TaintRange.mk 0 4 (mkSource "q" 1 "abcd"))); done.
Defined.

(** X16: the hash of a range fits an unsigned 32-bit integer: whatever
    [std::hash] and the hash of the source return, a result of
    [get_hash] lies between 0 and 2^32 - 1, and the call changes
    nothing. *)
Theorem get_hash_fits_uint std_hash Source_get_hash s r h s' :
  get_hash std_hash Source_get_hash r s = Ok h s' →
  0 ≤ h < 2 ^ 32 ∧ s' = s.
Proof. apply get_hash_bound. Qed.

Lemma get_hash_fits_uint_witness :
  0 ≤ 2 ^ 32 - 1 < 2 ^ 32 ∧ hash_state = hash_state.
Proof.
  apply (get_hash_fits_uint (λ _, -1) sample_source_hash hash_state 60 (2 ^ 32 - 1)
           hash_state).
  vm_compute. reflexivity.
Defined.

Lemma get_hash_collisions_witness :
  get_hash sample_std_hash sample_source_hash 60 hash_state
  = get_hash sample_std_hash sample_source_hash 61 hash_state
  ∧ get_hash sample_std_hash sample_source_hash 60 hash_state
    = get_hash sample_std_hash sample_source_hash 62 hash_state.
Proof.
  split.
  - apply (get_hash_collisions sample_std_hash sample_source_hash hash_state
             60 (TaintRange.mk 0 4 (mkSource "q" 1 "abcd"))
             61 (TaintRange.mk 4 0 (mkSource "q" 1 "abcd"))); try done.
    by right.
  - apply (get_hash_collisions sample_std_hash sample_source_hash hash_state
             60 (TaintRange.mk 0 4 (mkSource "q" 1 "abcd"))
             62 (TaintRange.mk (2 ^ 32) 4 (mkSource "q" 1 "abcd"))); try done.
    by left.
Defined.

Lemma eq_ranges_hash_iff_sources_witness :
  get_hash sample_std_hash sample_source_hash 60 hash_state
  = get_hash sample_std_hash sample_source_hash 63 hash_state
  ↔ to_uint (sample_std_hash (to_uint (sample_source_hash (mkSource "q" 1 "abcd"))))
    = to_uint (sample_std_hash (to_uint (sample_source_hash (mkSource "c" 3 "wxyz")))).
Proof.
  apply (eq_ranges_hash_iff_sources sample_std_hash sample_source_hash hash_state
           60 (TaintRange.mk 0 4 (mkSource "q" 1 "abcd"))
           63 (TaintRange.mk 0 4 (mkSource "c" 3 "wxyz"))); done.
Defined.

Lemma reset_effect_witness :
  ∃ s', reset sample_source_reset 51 operands_state = Ok tt s'
        ∧ taint_ranges s' !! 51 = Some (TaintRange.mk 0 0 (mkSource "" 0 ""))
        ∧ (∀ q, q ≠ 51 → taint_ranges s' !! q = taint_ranges operands_state !! q)
        ∧ tainted_objects s' = tainted_objects operands_state
        ∧ taint_maps s' = taint_maps operands_state
        ∧ py_objects s' = py_objects operands_state
        ∧ get_hash sample_std_hash sample_source_hash 51 s' = Ok 0 s'.
Proof.
  apply (reset_effect sample_std_hash sample_source_hash sample_source_reset
           operands_state 51 (TaintRange.mk 2 3 (mkSource "h" 2 "xyz"))); done.
Defined.

(** X20: [get_range_by_hash] returns the first match: without a
    sequence the answer is null; on a sequence of live ranges the call
    changes nothing and returns either null, and then no range of the
    sequence has the hash, or a range of the sequence that has the
    hash and is preceded only by ranges that do not have it. *)
Theorem get_range_by_hash_first_match std_hash Source_get_hash s h rs :
  Forall (range_ok s) rs →
  get_range_by_hash std_hash Source_get_hash h None s = Ok nullptr s
  ∧ ∃ p, get_range_by_hash std_hash Source_get_hash h (Some rs) s = Ok p s
         ∧ ((p = nullptr
             ∧ Forall (λ r, get_hash std_hash Source_get_hash r s ≠ Ok h s) rs)
            ∨ (p ≠ nullptr
               ∧ ∃ l1 l2, rs = l1 ++ p :: l2
                          ∧ get_hash std_hash Source_get_hash p s = Ok h s
                          ∧ Forall (λ r, get_hash std_hash Source_get_hash r s ≠ Ok h s)
                                   l1)).
Proof. apply get_range_by_hash_spec. Qed.

Lemma hash_state_ranges_ok : Forall (range_ok hash_state) [63; 60; 61].
Proof.
  do 3 (apply List.Forall_cons; [split; [done|by eexists]|]). apply List.Forall_nil.
Qed.

Lemma get_range_by_hash_first_match_witness :
  get_range_by_hash sample_std_hash sample_source_hash 5 None hash_state
  = Ok nullptr hash_state
  ∧ ∃ p, get_range_by_hash sample_std_hash sample_source_hash 5 (Some [63; 60; 61])
           hash_state = Ok p hash_state
         ∧ ((p = nullptr
             ∧ Forall (λ r, get_hash sample_std_hash sample_source_hash r hash_state
                            ≠ Ok 5 hash_state) [63; 60; 61])
            ∨ (p ≠ nullptr
               ∧ ∃ l1 l2, [63; 60; 61] = l1 ++ p :: l2
                          ∧ get_hash sample_std_hash sample_source_hash p hash_state
                            = Ok 5 hash_state
                          ∧ Forall (λ r, get_hash sample_std_hash sample_source_hash r
                                           hash_state ≠ Ok 5 hash_state) l1)).
Proof.
  apply (get_range_by_hash_first_match sample_std_hash sample_source_hash hash_state 5
           [63; 60; 61]).
  apply hash_state_ranges_ok.
Defined.

Lemma get_range_by_own_hash_witness :
  ∃ p, get_range_by_hash sample_std_hash sample_source_hash 5 (Some [63; 60; 61])
         hash_state = Ok p hash_state
       ∧ p ≠ nullptr ∧ p ∈ [63; 60; 61]
       ∧ get_hash sample_std_hash sample_source_hash p hash_state = Ok 5 hash_state
       ∧ ((∀ q, q ∈ [63; 60; 61]
                → get_hash sample_std_hash sample_source_hash q hash_state
                  = Ok 5 hash_state → q = 61)
          → p = 61).
Proof.
  apply (get_range_by_own_hash sample_std_hash sample_source_hash hash_state 5
           [63; 60; 61] 61).
  - apply hash_state_ranges_ok.
  - apply elem_of_cons. right. apply elem_of_cons. right. apply elem_of_cons. by left.
  - reflexivity.
Defined.

Lemma get_range_by_hash_out_of_range_witness :
  get_range_by_hash sample_std_hash sample_source_hash (2 ^ 32 + 5) (Some [63; 60; 61])
    hash_state = Ok nullptr hash_state.
Proof.
  apply (get_range_by_hash_out_of_range sample_std_hash sample_source_hash hash_state
           (2 ^ 32 + 5) [63; 60; 61]).
  - apply hash_state_ranges_ok.
  - lia.
Defined.

(** * Stale entries, again *)

Lemma decref_dangling s p :
  tainted_objects s !! p = None → TaintedObject.decref p s = Undefined.
Proof.
  intros Hp. unfold TaintedObject.decref, bind, load.
  destruct (p =? nullptr); [done|]. by rewrite Hp.
Qed.

(** X23: a stale entry is released on every lookup: when the cached
    hash of the entry differs from the value's hash and the container
    has one reference, the first [get_tainted_object] returns null and
    destroys the container while the entry stays in the map; a second
    lookup of the same value then has no defined result, as it
    releases the destroyed container again. *)
Theorem stale_lookup_twice s v o tx m cached tobj to :
  v ≠ nullptr → py_objects s !! v = Some o →
  resolve_map tx s ≠ nullptr → taint_maps s !! resolve_map tx s = Some m →
  m !! get_unique_id v = Some (cached, tobj) → ob_hash o ≠ cached →
  tobj ≠ nullptr → tainted_objects s !! tobj = Some to →
  TaintedObjectData.rc_ to = 1 →
  ∃ s', get_tainted_object v tx s = Ok nullptr s'
        ∧ tainted_objects s' !! tobj = None
        ∧ taint_maps s' = taint_maps s
        ∧ get_tainted_object v tx s' = Undefined.
Proof.
  intros Hv Ho Hmp Hm Hentry Hhash Ht Hto Hrc.
  eexists. split; [by eapply get_tainted_object_stale|].
  set (s' := with_tainted_objects (release tobj) s).
  assert (Hgone : tainted_objects s' !! tobj = None).
  { unfold s'. simpl. unfold release. rewrite Hto, Hrc. simpl. apply lookup_delete_eq. }
  split; [exact Hgone|]. split; [done|].
  unfold get_tainted_object.
  destruct (Z.eqb_spec v nullptr) as [?|_]; [done|].
  assert (Hmp' : resolve_map tx s' ≠ nullptr) by done.
  rewrite (bind_ok _ _ _ _ _ (map_or_throw_ok tx s' Hmp')).
  rewrite (bind_ok _ _ _ _ _ (map_at_ok _ s' m Hmp' Hm)).
  rewrite (is_empty_map_lookup _ _ _ Hentry), Hentry.
  rewrite (bind_ok _ _ _ _ _ (PyASCII_hash_ok s' v o Hv Ho)).
  destruct (Z.eqb_spec (ob_hash o) cached) as [?|_]; [done|]. simpl.
  unfold bind. by rewrite (decref_dangling s' tobj Hgone).
Qed.

Lemma stale_lookup_twice_witness :
  ∃ s', get_tainted_object 100 0 stale_state = Ok nullptr s'
        ∧ tainted_objects s' !! 1 = None
        ∧ taint_maps s' = taint_maps stale_state
        ∧ get_tainted_object 100 0 s' = Undefined.
Proof.
  apply (stale_lookup_twice stale_state 100 (mkPyObject 1 true 8 8) 0
           {[ 100 := (7, 1) ]} 7 1 (TaintedObjectData.mk [50] 1)); done.
Defined.



Lemma get_tainted_object_error_taxonomy_witness :
  get_tainted_object 100 0 no_context_state = Throw not_initialized no_context_state
  ∧ get_tainted_object nullptr 0 no_context_state = Ok nullptr no_context_state
  ∧ get_tainted_object 100 0 empty_map_state = Ok nullptr empty_map_state.
Proof.
  split; [|split].
  - apply (proj1 (proj2 (get_tainted_object_error_taxonomy no_context_state 100 0))).
    done.
  - apply (proj1 (proj2 (proj2
             (get_tainted_object_error_taxonomy no_context_state nullptr 0)))).
    done.
  - apply (proj2 (proj2 (proj2
             (get_tainted_object_error_taxonomy empty_map_state 100 0)))); done.
Defined.


(** * Values that are hashed after they are tainted *)

(** C1 (round trip through the map): [set_ranges] stores the hash
    field of the value as it finds it.  For the text value at 100 of
    [clean_state], not hashed yet, the entry caches -1: [get_ranges]
    returns the ranges right after the call, but once the value has
    been hashed, with the same value still at the same identity, the
    entry no longer matches and [get_ranges] returns the empty
    sequence.  A lookup through [get_tainted_object] then releases the
    container and keeps the entry, after which [set_ranges] on the
    value returns and [get_ranges] has no defined result. *)
Theorem set_ranges_caches_unset_hash :
  ∃ s1 s2 s3 s4,
    set_ranges 100 [50] 0 clean_state = Ok tt s1
    ∧ get_ranges 100 0 s1 = Ok [50] s1
    ∧ PyObject_Hash 100 s1 = Ok 7 s2
    ∧ (∃ m, taint_maps s2 !! 10 = Some m ∧ m !! get_unique_id 100 = Some (-1, 1))
    ∧ get_ranges 100 0 s2 = Ok [] s2
    ∧ get_tainted_object 100 0 s2 = Ok nullptr s3
    ∧ set_ranges 100 [50] 0 s3 = Ok tt s4
    ∧ get_ranges 100 0 s4 = Undefined.
Proof.
  eexists _, _, _, _.
  split; [vm_compute; reflexivity|]. split; [vm_compute; reflexivity|].
  split; [vm_compute; reflexivity|].
  split; [eexists; split; [vm_compute; reflexivity|reflexivity]|].
  split; [vm_compute; reflexivity|]. split; [vm_compute; reflexivity|].
  split; [vm_compute; reflexivity|]. vm_compute. reflexivity.
Qed.

(** C4 (re-tainting releases the previous container): for the text
    value at 100 of [clean_state], tainted twice and hashed
    afterwards, [get_ranges] returns the empty sequence instead of the
    second ranges.  And after the entries of two other values have
    gone stale and have been looked up, the container that the second
    [set_ranges] makes for the value is referred to by two map
    entries while its count is one. *)
Theorem retaint_then_hash_or_stale_entries :
  (∃ s1 s2 s3,
     set_ranges 100 [50] 0 clean_state = Ok tt s1
     ∧ set_ranges 100 [50; 50] 0 s1 = Ok tt s2
     ∧ PyObject_Hash 100 s2 = Ok 7 s3
     ∧ get_ranges 100 0 s3 = Ok [] s3)
  ∧ (∃ s' m,
       (set_ranges 201 [50] 0 ;; set_ranges 202 [50] 0 ;;
        PyObject_Hash 201 ;; PyObject_Hash 202 ;;
        get_tainted_object 202 0 ;; get_tainted_object 201 0 ;;
        set_ranges 100 [50] 0 ;; set_ranges 100 [50; 50] 0) clean_state = Ok tt s'
       ∧ taint_maps s' !! 10 = Some m
       ∧ m !! get_unique_id 100 = Some (-1, 2)
       ∧ m !! get_unique_id 202 = Some (-1, 2)
       ∧ tainted_objects s' !! 2 = Some (TaintedObjectData.mk [50; 50] 1)
       ∧ map_refs 2 s' = 2%nat).
Proof.
  split.
  - eexists _, _, _.
    split; [vm_compute; reflexivity|]. split; [vm_compute; reflexivity|].
    split; [vm_compute; reflexivity|]. vm_compute. reflexivity.
  - eexists _, _. split; [vm_compute; reflexivity|].
    split; [vm_compute; reflexivity|].
    split; [reflexivity|]. split; [reflexivity|]. split; [reflexivity|].
    vm_compute. reflexivity.
Qed.

(** C10 (re-setting the same container is neutral): the text value at
    100 of [clean_state] is tainted before it has been hashed, so its
    entry refers to container 1.  Setting that container again first
    forces the hash and hands the hash it gets, 7, to [Py_DECREF] as
    if it were the address of an object; no object lives there, and
    the call has no defined result. *)
Theorem set_tainted_object_same_object_unhashed :
  ∃ s1,
    set_ranges 100 [50] 0 clean_state = Ok tt s1
    ∧ is_text 100 s1 = Ok true s1
    ∧ PyASCII_hash 100 s1 = Ok (-1) s1
    ∧ get_tainted_object 100 0 s1 = Ok 1 s1
    ∧ py_objects s1 !! 7 = None
    ∧ set_tainted_object 100 1 0 s1 = Undefined.
Proof.
  eexists. split; [vm_compute; reflexivity|].
  split; [vm_compute; reflexivity|]. split; [vm_compute; reflexivity|].
  split; [vm_compute; reflexivity|]. split; [reflexivity|].
  vm_compute. reflexivity.
Qed.
